(** * MCP23S17 matrix controller: register protocol, shadow ports, presses

    A shallow embedding of [mcp23s17_controller.py].  Python integers are
    unbounded, so every integer of the program is a [Z] and the bit
    operators are [Z.lor], [Z.land], [Z.lnot] and [Z.shiftl] without any
    wrap-around.  Methods mutate [self] and may raise: they are embedded in
    a state-and-exception monad that also collects, in order, what the
    process does to the outside world (SPI transfers, sleeps, closing the
    handle).  Mutations made before an exception is raised stay in the
    state, as they do in Python.  Calls to [logger] have no effect on the
    program state and are left out. *)

From Stdlib Require Import ZArith List String Ascii Bool Lia QArith.
Import ListNotations.
Open Scope string_scope.
Open Scope list_scope.
Open Scope Z_scope.

(** ** Exceptions, outcomes and the effect monad *)

Inductive exn : Type :=
| ValueError (msg : string)
| OSError
| IndexError
| OverflowError.

Inductive outcome (A : Type) : Type :=
| Return (a : A)
| Raise (e : exn).
Arguments Return {A} a.
Arguments Raise {A} e.

(** What the process does that is visible from outside, in program order. *)
Inductive event : Type :=
| Writebytes (tx : list Z)      (* spi.writebytes(tx) went through *)
| Xfer2 (tx rx : list Z)        (* spi.xfer2(tx) returned rx *)
| Fault (tx : list Z)           (* a transfer of tx was attempted and raised *)
| Sleep (d : Q)                 (* time.sleep(d) *)
| Close.                        (* spi.close() released the handle *)

Definition Py (S A : Type) : Type := S -> outcome A * S * list event.

Definition ret {S A} (a : A) : Py S A := fun s => (Return a, s, []).

Definition raise {S A} (e : exn) : Py S A := fun s => (Raise e, s, []).

Definition bind {S A B} (m : Py S A) (k : A -> Py S B) : Py S B :=
  fun s =>
    match m s with
    | (Return a, s1, t1) =>
        match k a s1 with
        | (r, s2, t2) => (r, s2, t1 ++ t2)
        end
    | (Raise e, s1, t1) => (Raise e, s1, t1)
    end.

Definition get {S} : Py S S := fun s => (Return s, s, []).

Definition modify {S} (f : S -> S) : Py S unit := fun s => (Return tt, f s, []).

Definition emit {S} (e : event) : Py S unit := fun s => (Return tt, s, [e]).

(** [try: body  except Exception as e: handler e]. *)
Definition try_except {S A} (body : Py S A) (handler : exn -> Py S A) : Py S A :=
  fun s =>
    match body s with
    | (Return a, s1, t1) => (Return a, s1, t1)
    | (Raise e, s1, t1) =>
        match handler e s1 with
        | (r, s2, t2) => (r, s2, t1 ++ t2)
        end
    end.

(** Run a method of a component object inside the object that holds it. *)
Definition zoom {S T A} (proj : S -> T) (inj : T -> S -> S) (m : Py T A) : Py S A :=
  fun s =>
    match m (proj s) with
    | (r, t', tr) => (r, inj t' s, tr)
    end.

Declare Scope py_scope.
Delimit Scope py_scope with py.
Notation "x <- m ;; k" := (bind m (fun x => k))
  (at level 61, m at next level, right associativity) : py_scope.
Notation "m ;; k" := (bind m (fun _ => k))
  (at level 61, right associativity) : py_scope.
Open Scope py_scope.

Definition result {S A} (r : outcome A * S * list event) : outcome A := fst (fst r).
Definition final {S A} (r : outcome A * S * list event) : S := snd (fst r).
Definition trace {S A} (r : outcome A * S * list event) : list event := snd r.

(** ** The SPI handle (spidev.SpiDev)

    The transport is outside the repository.  The handle is open or closed;
    [line n] is what the wire does at the [n]-th transfer attempted on the
    open handle: [Some rx] clocks the frame out and [rx] in, [None] makes
    the call raise.  A transfer on a closed handle raises.  [close_ok] says
    whether releasing the descriptor succeeds. *)

Record SpiDev : Type := mkSpiDev {
  fd_open : bool;
  line : nat -> option (list Z);
  xfers : nat;
  close_ok : bool
}.

Definition advance (d : SpiDev) : SpiDev :=
  mkSpiDev (fd_open d) (line d) (S (xfers d)) (close_ok d).

Definition spi_writebytes (tx : list Z) : Py SpiDev unit :=
  fun d =>
    if fd_open d then
      match line d (xfers d) with
      | Some _ => (Return tt, advance d, [Writebytes tx])
      | None => (Raise OSError, advance d, [Fault tx])
      end
    else (Raise OSError, d, []).

Definition spi_xfer2 (tx : list Z) : Py SpiDev (list Z) :=
  fun d =>
    if fd_open d then
      match line d (xfers d) with
      | Some rx => (Return rx, advance d, [Xfer2 tx rx])
      | None => (Raise OSError, advance d, [Fault tx])
      end
    else (Raise OSError, d, []).

Definition spi_close : Py SpiDev unit :=
  fun d =>
    if fd_open d then
      if close_ok d
      then (Return tt, mkSpiDev false (line d) (xfers d) (close_ok d), [Close])
      else (Raise OSError, d, [])
    else (Return tt, d, []).

(** [time.sleep(d)] (CPython 3.11, Linux).  The duration is first turned
    into a signed 64-bit count of nanoseconds, which raises [OverflowError]
    outside that range; then a negative duration raises [ValueError]; then
    the deadline, the reading of the monotonic clock plus the duration, is
    handed to the system, which refuses it with [OSError] once it leaves
    the 64-bit range.  The clock is not part of the model: it is taken to
    read at most 2^62 ns (146 years), so that a duration of at most
    [sleep_limit] is slept, and a longer one is taken as refused.  A
    duration is a rational: the floats [nan] and [inf] are not durations
    here, and the range test is exact where a float product rounds in its
    last place. *)
Definition ns_floor : Q := (-9223372036854775808) # 1000000000.

Definition ns_ceiling : Q := 9223372036854775808 # 1000000000.

Definition sleep_limit : Q := 4611686018427387904 # 1000000000.

(** A duration that [time.sleep] sleeps for. *)
Definition sleep_accepts (d : Q) : bool := Qle_bool 0 d && Qle_bool d sleep_limit.

Definition time_sleep {S} (d : Q) : Py S unit :=
  if negb (Qle_bool ns_floor d) || Qle_bool ns_ceiling d then
    raise OverflowError
  else if negb (Qle_bool 0 d) then
    raise (ValueError "sleep length must be non-negative")
  else if Qle_bool d sleep_limit then emit (Sleep d)
  else raise OSError.

(** ** Register addresses *)

Inductive MCP23S17Register : Type :=
| IODIRA | IODIRB | IPOLA | IPOLB | GPINTENA | GPINTENB
| DEFVALA | DEFVALB | INTCONA | INTCONB | IOCONA | IOCONB
| GPPUA | GPPUB | INTFA | INTFB | INTCAPA | INTCAPB
| GPIOA | GPIOB | OLATA | OLATB.

Definition value (r : MCP23S17Register) : Z :=
  match r with
  | IODIRA => 0x00 | IODIRB => 0x01
  | IPOLA => 0x02 | IPOLB => 0x03
  | GPINTENA => 0x04 | GPINTENB => 0x05
  | DEFVALA => 0x06 | DEFVALB => 0x07
  | INTCONA => 0x08 | INTCONB => 0x09
  | IOCONA => 0x0A | IOCONB => 0x0B
  | GPPUA => 0x0C | GPPUB => 0x0D
  | INTFA => 0x0E | INTFB => 0x0F
  | INTCAPA => 0x10 | INTCAPB => 0x11
  | GPIOA => 0x12 | GPIOB => 0x13
  | OLATA => 0x14 | OLATB => 0x15
  end.

(** ** class MCP23S17 *)

Record MCP23S17 : Type := mkMCP23S17 {
  spi : SpiDev;
  chip_select : Z;
  port_a_state : Z;
  port_b_state : Z
}.

Definition with_spi (d : SpiDev) (self : MCP23S17) : MCP23S17 :=
  mkMCP23S17 d (chip_select self) (port_a_state self) (port_b_state self).

Definition with_port_a_state (v : Z) (self : MCP23S17) : MCP23S17 :=
  mkMCP23S17 (spi self) (chip_select self) v (port_b_state self).

Definition with_port_b_state (v : Z) (self : MCP23S17) : MCP23S17 :=
  mkMCP23S17 (spi self) (chip_select self) (port_a_state self) v.

Definition on_spi {A} (m : Py SpiDev A) : Py MCP23S17 A := zoom spi with_spi m.

(** Command byte: 0x40 (fixed) | (slave_address << 1) | opcode. *)
Definition _build_command (self : MCP23S17) (opcode address : Z) : Z * Z :=
  (Z.lor (Z.lor 0x40 (Z.shiftl (chip_select self) 1)) opcode, address).

Definition _write_register (register : MCP23S17Register) (data : Z) : Py MCP23S17 unit :=
  self <- get ;;
  let '(command, address) := _build_command self 0 (value register) in
  try_except
    (on_spi (spi_writebytes [command; address; data]))
    (fun e => raise e).

Definition _read_register (register : MCP23S17Register) : Py MCP23S17 Z :=
  self <- get ;;
  let '(command, address) := _build_command self 1 (value register) in
  try_except
    (result <- on_spi (spi_xfer2 [command; address; 0x00]) ;;
     match nth_error result 2 with
     | Some data => ret data
     | None => raise IndexError
     end)
    (fun e => raise e).

(** [str.upper] on the characters that matter here: ASCII letters.  A byte
    outside a-z is left as it is, so no other string becomes "A" or "B". *)
Definition upper_ascii (c : ascii) : ascii :=
  let n := nat_of_ascii c in
  if (Nat.leb 97 n && Nat.leb n 122)%bool then ascii_of_nat (n - 32) else c.

Fixpoint upper (s : string) : string :=
  match s with
  | EmptyString => EmptyString
  | String c rest => String (upper_ascii c) (upper rest)
  end.

(** [x in xs] for a list of strings. *)
Definition str_in (x : string) (xs : list string) : bool :=
  existsb (String.eqb x) xs.

(** [0 <= pin <= 7]. *)
Definition pin_in_range (pin : Z) : bool := (0 <=? pin) && (pin <=? 7).

Definition _initialize_chip : Py MCP23S17 unit :=
  try_except
    (_write_register IODIRA 0x00 ;;
     _write_register IODIRB 0x00 ;;
     _write_register GPPUA 0x00 ;;
     _write_register GPPUB 0x00 ;;
     _write_register GPIOA 0x00 ;;
     _write_register GPIOB 0x00 ;;
     modify (with_port_a_state 0x00) ;;
     modify (with_port_b_state 0x00))
    (fun e => raise e).

(** [MCP23S17(chip_select=...)] on a handle that [spi.open] has returned:
    opening and configuring the bus is the transport's business, and the
    [atexit] registration of [cleanup] concerns the end of the process,
    not the object. *)
Definition MCP23S17__init__ (dev : SpiDev) (chip_select : Z)
  : outcome unit * MCP23S17 * list event :=
  _initialize_chip (mkMCP23S17 dev chip_select 0x00 0x00).

Definition set_pin_high (port : string) (pin : Z) : Py MCP23S17 unit :=
  if negb (str_in (upper port) ["A"; "B"]) then
    raise (ValueError "Port must be 'A' or 'B'")
  else if negb (pin_in_range pin) then
    raise (ValueError "Pin must be 0-7")
  else
    let port := upper port in
    if String.eqb port "A" then
      modify (fun self =>
                with_port_a_state (Z.lor (port_a_state self) (Z.shiftl 1 pin)) self) ;;
      self <- get ;;
      _write_register GPIOA (port_a_state self)
    else
      modify (fun self =>
                with_port_b_state (Z.lor (port_b_state self) (Z.shiftl 1 pin)) self) ;;
      self <- get ;;
      _write_register GPIOB (port_b_state self).

Definition set_pin_low (port : string) (pin : Z) : Py MCP23S17 unit :=
  if negb (str_in (upper port) ["A"; "B"]) then
    raise (ValueError "Port must be 'A' or 'B'")
  else if negb (pin_in_range pin) then
    raise (ValueError "Pin must be 0-7")
  else
    let port := upper port in
    if String.eqb port "A" then
      modify (fun self =>
                with_port_a_state
                  (Z.land (port_a_state self) (Z.lnot (Z.shiftl 1 pin))) self) ;;
      self <- get ;;
      _write_register GPIOA (port_a_state self)
    else
      modify (fun self =>
                with_port_b_state
                  (Z.land (port_b_state self) (Z.lnot (Z.shiftl 1 pin))) self) ;;
      self <- get ;;
      _write_register GPIOB (port_b_state self).

(** [bool(x)] for an integer. *)
Definition truthy (x : Z) : bool := negb (x =? 0).

Definition toggle_pin (port : string) (pin : Z) : Py MCP23S17 bool :=
  if negb (str_in (upper port) ["A"; "B"]) then
    raise (ValueError "Port must be 'A' or 'B'")
  else if negb (pin_in_range pin) then
    raise (ValueError "Pin must be 0-7")
  else
    let port := upper port in
    if String.eqb port "A" then
      self <- get ;;
      let is_high := truthy (Z.land (port_a_state self) (Z.shiftl 1 pin)) in
      (if is_high then set_pin_low port pin else set_pin_high port pin) ;;
      ret (negb is_high)
    else
      self <- get ;;
      let is_high := truthy (Z.land (port_b_state self) (Z.shiftl 1 pin)) in
      (if is_high then set_pin_low port pin else set_pin_high port pin) ;;
      ret (negb is_high).

Definition set_port (port : string) (v : Z) : Py MCP23S17 unit :=
  if negb (str_in (upper port) ["A"; "B"]) then
    raise (ValueError "Port must be 'A' or 'B'")
  else if negb ((0 <=? v) && (v <=? 0xFF)) then
    raise (ValueError "Value must be 0-255")
  else
    let port := upper port in
    if String.eqb port "A" then
      modify (with_port_a_state v) ;;
      _write_register GPIOA v
    else
      modify (with_port_b_state v) ;;
      _write_register GPIOB v.

Definition get_port_state (port : string) : Py MCP23S17 Z :=
  if negb (str_in (upper port) ["A"; "B"]) then
    raise (ValueError "Port must be 'A' or 'B'")
  else
    let port := upper port in
    self <- get ;;
    if String.eqb port "A" then ret (port_a_state self)
    else ret (port_b_state self).

Definition pulse_pin (port : string) (pin : Z) (duration : Q) : Py MCP23S17 unit :=
  set_pin_high port pin ;;
  time_sleep duration ;;
  set_pin_low port pin.

Definition pulse_row_column (row col : Z) (row_port col_port : string) (duration : Q)
  : Py MCP23S17 unit :=
  set_pin_high row_port row ;;
  set_pin_high col_port col ;;
  time_sleep duration ;;
  set_pin_low row_port row ;;
  set_pin_low col_port col.

(** The body of [for i, (row, col) in enumerate(sequence)], from index [i]
    on; [n] is [len(sequence)]. *)
Fixpoint matrix_sequence_from (n i : Z) (rest : list (Z * Z))
    (row_port col_port : string) (duration interval : Q) : Py MCP23S17 unit :=
  match rest with
  | [] => ret tt
  | (row, col) :: rest' =>
      pulse_row_column row col row_port col_port duration ;;
      (if i <? n - 1 then time_sleep interval else ret tt) ;;
      matrix_sequence_from n (i + 1) rest' row_port col_port duration interval
  end.

Definition matrix_sequence (sequence : list (Z * Z)) (row_port col_port : string)
    (duration interval : Q) : Py MCP23S17 unit :=
  matrix_sequence_from (Z.of_nat (List.length sequence)) 0 sequence
    row_port col_port duration interval.

Definition read_port_input (port : string) : Py MCP23S17 Z :=
  if negb (str_in (upper port) ["A"; "B"]) then
    raise (ValueError "Port must be 'A' or 'B'")
  else
    let port := upper port in
    if String.eqb port "A" then _read_register GPIOA
    else _read_register GPIOB.

Definition configure_pin_mode (port : string) (pin : Z) (is_output : bool)
  : Py MCP23S17 unit :=
  if negb (str_in (upper port) ["A"; "B"]) then
    raise (ValueError "Port must be 'A' or 'B'")
  else if negb (pin_in_range pin) then
    raise (ValueError "Pin must be 0-7")
  else
    let port := upper port in
    let register := if String.eqb port "A" then IODIRA else IODIRB in
    current <- _read_register register ;;
    let current :=
      if is_output then Z.land current (Z.lnot (Z.shiftl 1 pin))
      else Z.lor current (Z.shiftl 1 pin) in
    _write_register register current.

(** The handler only logs: no exception leaves [cleanup]. *)
Definition cleanup : Py MCP23S17 unit :=
  try_except
    (_write_register GPIOA 0x00 ;;
     _write_register GPIOB 0x00 ;;
     on_spi spi_close)
    (fun _ => ret tt).

(** ** class MatrixController *)

Record MatrixController : Type := mkMatrixController {
  num_rows : Z;
  num_cols : Z;
  row_port : string;
  col_port : string;
  mcp : MCP23S17
}.

Definition with_mcp (m : MCP23S17) (self : MatrixController) : MatrixController :=
  mkMatrixController (num_rows self) (num_cols self) (row_port self) (col_port self) m.

Definition on_mcp {A} (m : Py MCP23S17 A) : Py MatrixController A := zoom mcp with_mcp m.

(** [MatrixController(num_rows, num_cols, row_port, col_port)]: the
    expander is built with its default chip select 0. *)
Definition MatrixController__init__ (dev : SpiDev) (num_rows num_cols : Z)
    (row_port col_port : string) : outcome unit * MatrixController * list event :=
  match MCP23S17__init__ dev 0 with
  | (r, m, t) => (r, mkMatrixController num_rows num_cols row_port col_port m, t)
  end.

(** The message of the [ValueError] is given without the two numbers the
    f-string puts in it. *)
Definition press_button (row col : Z) (duration : Q) : Py MatrixController unit :=
  self <- get ;;
  if negb ((0 <=? row) && (row <? num_rows self) && ((0 <=? col) && (col <? num_cols self)))
  then raise (ValueError "Invalid matrix position")
  else on_mcp (pulse_row_column row col (row_port self) (col_port self) duration).

Definition press_sequence (buttons : list (Z * Z)) (duration interval : Q)
  : Py MatrixController unit :=
  self <- get ;;
  on_mcp (matrix_sequence buttons (row_port self) (col_port self) duration interval).

Definition MatrixController_cleanup : Py MatrixController unit := on_mcp cleanup.

(** ** Vocabulary of the statements *)

(** The next [k] transfers on the handle go through. *)
Fixpoint healthy (k : nat) (d : SpiDev) : bool :=
  match k with
  | O => true
  | S k' =>
      fd_open d
      && match line d (xfers d) with Some _ => true | None => false end
      && healthy k' (advance d)
  end.

Definition valid_port (port : string) : bool := str_in (upper port) ["A"; "B"].

(** The GPIO register and the cached byte a port letter stands for. *)
Definition gpio_of (port : string) : MCP23S17Register :=
  if String.eqb (upper port) "A" then GPIOA else GPIOB.

Definition shadow (port : string) (self : MCP23S17) : Z :=
  if String.eqb (upper port) "A" then port_a_state self else port_b_state self.

Definition set_shadow (port : string) (v : Z) (self : MCP23S17) : MCP23S17 :=
  if String.eqb (upper port) "A" then with_port_a_state v self
  else with_port_b_state v self.

Definition pin_high (port : string) (pin : Z) (self : MCP23S17) : MCP23S17 :=
  set_shadow port (Z.lor (shadow port self) (Z.shiftl 1 pin)) self.

Definition pin_low (port : string) (pin : Z) (self : MCP23S17) : MCP23S17 :=
  set_shadow port (Z.land (shadow port self) (Z.lnot (Z.shiftl 1 pin))) self.

(** [set_pin(port, pin, level)] of the specification: the code has one
    method per level. *)
Definition set_pin (port : string) (pin : Z) (level : bool) : Py MCP23S17 unit :=
  if level then set_pin_high port pin else set_pin_low port pin.

(** The object after one more transfer on its handle. *)
Definition tick (self : MCP23S17) : MCP23S17 := with_spi (advance (spi self)) self.

(** The frame of a register write. *)
Definition write_frame (cs : Z) (r : MCP23S17Register) (data : Z) : list Z :=
  [Z.lor (Z.lor 0x40 (Z.shiftl cs 1)) 0; value r; data].

(** The chip's side of the wire: a register holds the data byte of the last
    write frame (opcode bit 0) addressed to it; [v] is what it held before. *)
Definition latch (addr : Z) (v : Z) (e : event) : Z :=
  match e with
  | Writebytes [cmd; a; data] =>
      if (a =? addr) && negb (Z.testbit cmd 0) then data else v
  | _ => v
  end.

Definition latched (r : MCP23S17Register) (v : Z) (t : list event) : Z :=
  fold_left (latch (value r)) t v.

(** [0 <= row < num_rows and 0 <= col < num_cols]. *)
Definition valid_position (self : MatrixController) (p : Z * Z) : bool :=
  (0 <=? fst p) && (fst p <? num_rows self)
  && ((0 <=? snd p) && (snd p <? num_cols self)).

(** The sequence runner in the words of the specification: press each
    position in the order given and, after every press except the last,
    block for [interval]; nothing for the empty list.  [press] is the
    single press it is built from. *)
Fixpoint press_each_in_order {S} (press : Z -> Z -> Py S unit)
    (positions : list (Z * Z)) (interval : Q) : Py S unit :=
  match positions with
  | [] => ret tt
  | (row, col) :: rest =>
      press row col ;;
      match rest with
      | [] => ret tt
      | _ :: _ => time_sleep interval ;; press_each_in_order press rest interval
      end
  end.

(** Concrete handles and objects for the examples. *)
Definition wire_ok : nat -> option (list Z) := fun _ => Some [0; 0; 0].
Definition wire_dead : nat -> option (list Z) := fun _ => None.
Definition dev_ok : SpiDev := mkSpiDev true wire_ok 0 true.
Definition dev_dead : SpiDev := mkSpiDev true wire_dead 0 true.
Definition chip_ok : MCP23S17 := mkMCP23S17 dev_ok 0 0x00 0x00.
Definition chip_dead : MCP23S17 := mkMCP23S17 dev_dead 0 0x00 0x00.
(** [MatrixController(num_rows=4, num_cols=4, row_port='A', col_port='B')]
    on a working bus. *)
Definition matrix_4x4 : MatrixController :=
  final (MatrixController__init__ dev_ok 4 4 "A" "B").


(** An event that is an accepted write or a sleep: not a read, not a failed
    transfer, not the release of the handle. *)
Definition is_write_or_sleep (e : event) : bool :=
  match e with
  | Writebytes _ | Sleep _ => true
  | _ => false
  end.

(** ** Vocabulary of the further properties *)

(** A value that fits in the eight pins of a port. *)
Definition in_byte (v : Z) : bool := (0 <=? v) && (v <=? 0xFF).

Definition bytes_ok (self : MCP23S17) : Prop :=
  in_byte (port_a_state self) = true /\ in_byte (port_b_state self) = true.

(** The cache agrees with the chip, whose GPIO registers hold [ga], [gb]. *)
Definition in_step (self : MCP23S17) (ga gb : Z) : Prop :=
  port_a_state self = ga /\ port_b_state self = gb.

(** The frames written and the sleeps taken along a trace, in order. *)
Definition writes (t : list event) : list (list Z) :=
  flat_map (fun e => match e with Writebytes tx => [tx] | _ => [] end) t.

Definition sleeps (t : list event) : list Q :=
  flat_map (fun e => match e with Sleep d => [d] | _ => [] end) t.

(** [d] for one press, then [interval; d] for each further press. *)
Fixpoint sleep_pattern (n : nat) (d interval : Q) : list Q :=
  match n with
  | O => []
  | S O => [d]
  | S n' => d :: interval :: sleep_pattern n' d interval
  end.

Definition pins_in_range (p : Z * Z) : bool :=
  pin_in_range (fst p) && pin_in_range (snd p).

(** A frame that writes a GPIO register of the chip [cs]. *)
Definition gpio_frame (cs : Z) (tx : list Z) : Prop :=
  exists data, tx = write_frame cs GPIOA data \/ tx = write_frame cs GPIOB data.

(** An operation that, when it returns normally from a state in step with
    the chip, ends in a state in step with the chip. *)
Definition steady {A} (m : Py MCP23S17 A) : Prop :=
  forall (self : MCP23S17) (ga gb : Z) (x : A),
    in_step self ga gb ->
    result (m self) = Return x ->
    in_step (final (m self))
      (latched GPIOA ga (trace (m self))) (latched GPIOB gb (trace (m self))).

(** An operation that keeps the cached bytes within a byte, however it
    ends. *)
Definition keeps_bytes {A} (m : Py MCP23S17 A) : Prop :=
  forall self : MCP23S17, bytes_ok self -> bytes_ok (final (m self)).

(** A run that, if it returned normally, ended in step with the chip whose
    GPIO registers held [ga], [gb] before it. *)
Definition in_step_after {A} (ga gb : Z) (r : outcome A * MCP23S17 * list event) : Prop :=
  (exists x, result r = Return x) ->
  in_step (final r) (latched GPIOA ga (trace r)) (latched GPIOB gb (trace r)).

(** ** example_3x4_matrix.py: class Keypad3x4

    A [dict] is kept as the list of its items in insertion order.  Strings
    are taken to be ASCII; [is_space] is what [str.split()] and
    [str.strip()] treat as whitespace among the ASCII characters. *)

Fixpoint dict_get {K V} (eqb : K -> K -> bool) (k : K) (d : list (K * V)) : option V :=
  match d with
  | [] => None
  | (k', v) :: rest => if eqb k k' then Some v else dict_get eqb k rest
  end.

(** [d[k] = v]: the value is replaced in place, or the item is added last. *)
Fixpoint dict_set {K V} (eqb : K -> K -> bool) (k : K) (v : V) (d : list (K * V))
  : list (K * V) :=
  match d with
  | [] => [(k, v)]
  | (k', v') :: rest =>
      if eqb k k' then (k', v) :: rest else (k', v') :: dict_set eqb k v rest
  end.

Definition pos_eqb (p q : Z * Z) : bool := (fst p =? fst q) && (snd p =? snd q).

Definition BUTTON_MAP : list (string * (Z * Z)) :=
  [("1", (0, 0)); ("2", (0, 1)); ("3", (0, 2)); ("CALL", (0, 3));
   ("4", (1, 0)); ("5", (1, 1)); ("6", (1, 2)); ("0", (1, 3));
   ("7", (2, 0)); ("8", (2, 1)); ("9", (2, 2)); ("CLR", (2, 3))].

(** [{v: k for k, v in BUTTON_MAP.items()}]. *)
Definition POSITION_MAP : list ((Z * Z) * string) :=
  fold_left (fun d kv => dict_set pos_eqb (snd kv) (fst kv) d) BUTTON_MAP [].

Record Keypad3x4 : Type := mkKeypad3x4 { controller : MatrixController }.

Definition on_controller {A} (m : Py MatrixController A) : Py Keypad3x4 A :=
  zoom controller (fun c _ => mkKeypad3x4 c) m.

Definition Keypad3x4__init__ (dev : SpiDev) (row_port col_port : string)
  : outcome unit * Keypad3x4 * list event :=
  match MatrixController__init__ dev 3 4 row_port col_port with
  | (r, c, t) => (r, mkKeypad3x4 c, t)
  end.

(** The membership test and the lookup that follows it are one lookup
    here; the message is given without the name the f-string puts in it. *)
Definition Keypad3x4_press_button (button_name : string) (duration : Q)
  : Py Keypad3x4 unit :=
  match dict_get String.eqb button_name BUTTON_MAP with
  | None => raise (ValueError "Invalid button")
  | Some (row, col) => on_controller (press_button row col duration)
  end.

Definition is_space (c : ascii) : bool :=
  let n := nat_of_ascii c in
  (Nat.leb 9 n && Nat.leb n 13) || (Nat.leb 28 n && Nat.leb n 32).

(** [s.replace(' ', '')]. *)
Fixpoint str_remove_spaces (s : string) : string :=
  match s with
  | EmptyString => EmptyString
  | String c rest =>
      if Ascii.eqb c " " then str_remove_spaces rest
      else String c (str_remove_spaces rest)
  end.

(** [s.split()]: the maximal runs of non-whitespace characters; [cur] is
    the run being read, last character first. *)
Fixpoint str_split_from (cur : list ascii) (s : string) : list string :=
  match s with
  | EmptyString =>
      match cur with
      | [] => []
      | _ :: _ => [string_of_list_ascii (rev cur)]
      end
  | String c rest =>
      if is_space c then
        match cur with
        | [] => str_split_from [] rest
        | _ :: _ => string_of_list_ascii (rev cur) :: str_split_from [] rest
        end
      else str_split_from (c :: cur) rest
  end.

Definition str_split (s : string) : list string := str_split_from [] s.

Fixpoint str_lstrip (s : string) : string :=
  match s with
  | EmptyString => EmptyString
  | String c rest => if is_space c then str_lstrip rest else s
  end.

Definition str_reverse (s : string) : string :=
  string_of_list_ascii (rev (list_ascii_of_string s)).

(** [s.strip()]. *)
Definition str_strip (s : string) : string :=
  str_reverse (str_lstrip (str_reverse (str_lstrip s))).

(** [list(s)]: one string per character. *)
Definition list_chars (s : string) : list string :=
  map (fun c => String c EmptyString) (list_ascii_of_string s).

(** One turn of the loop over [buttons]: blank and unknown names are
    passed over, a known name adds its position at the end. *)
Definition collect_button (coordinates : list (Z * Z)) (button : string)
  : list (Z * Z) :=
  let button := str_strip button in
  if String.eqb button "" then coordinates
  else
    match dict_get String.eqb button BUTTON_MAP with
    | None => coordinates
    | Some p => coordinates ++ [p]
    end.

Definition Keypad3x4_press_sequence (button_sequence : string) (duration interval : Q)
  : Py Keypad3x4 unit :=
  let buttons := str_split (str_remove_spaces button_sequence) in
  let buttons :=
    if Nat.eqb (List.length buttons) 1 then list_chars button_sequence else buttons in
  let coordinates := fold_left collect_button buttons [] in
  match coordinates with
  | [] => ret tt
  | _ :: _ => on_controller (press_sequence coordinates duration interval)
  end.

Definition Keypad3x4_cleanup : Py Keypad3x4 unit := on_controller MatrixController_cleanup.

(** An ASCII string whose only whitespace, if any, is the space character. *)
Definition plain_char (c : ascii) : bool :=
  Nat.ltb (nat_of_ascii c) 128 && (negb (is_space c) || Ascii.eqb c " ").

Definition plain (s : string) : bool := forallb plain_char (list_ascii_of_string s).

(** The positions of the characters of [s] that are button names. *)
Definition char_positions (s : string) : list (Z * Z) :=
  flat_map (fun c => match dict_get String.eqb (String c EmptyString) BUTTON_MAP with
                     | Some p => [p]
                     | None => []
                     end) (list_ascii_of_string s).

Definition keypad_ok : Keypad3x4 := final (Keypad3x4__init__ dev_ok "A" "B").

(** ** Bit arithmetic on the cached bytes *)

Lemma testbit_one_shifted (pin n : Z) :
  0 <= pin -> 0 <= n -> Z.testbit (Z.shiftl 1 pin) n = (pin =? n).
Proof.
  intros Hp Hn. rewrite Z.shiftl_1_l. apply Z.pow2_bits_eqb. exact Hp.
Qed.

Lemma lor_sets_bit (a pin : Z) :
  0 <= pin -> Z.testbit (Z.lor a (Z.shiftl 1 pin)) pin = true.
Proof.
  intros Hp. rewrite Z.lor_spec, testbit_one_shifted by lia.
  rewrite Z.eqb_refl. apply orb_true_r.
Qed.

Lemma land_clears_bit (a pin : Z) :
  0 <= pin -> Z.testbit (Z.land a (Z.lnot (Z.shiftl 1 pin))) pin = false.
Proof.
  intros Hp. rewrite Z.land_spec, Z.lnot_spec, testbit_one_shifted by lia.
  rewrite Z.eqb_refl. apply andb_false_r.
Qed.

Lemma mask_reads_bit (a pin : Z) :
  0 <= pin -> truthy (Z.land a (Z.shiftl 1 pin)) = Z.testbit a pin.
Proof.
  intros Hp. unfold truthy.
  destruct (Z.testbit a pin) eqn:Hb.
  - destruct (Z.eqb_spec (Z.land a (Z.shiftl 1 pin)) 0) as [E | _]; [ | reflexivity].
    assert (Hc : Z.testbit (Z.land a (Z.shiftl 1 pin)) pin = true).
    { rewrite Z.land_spec, Hb, testbit_one_shifted, Z.eqb_refl by lia. reflexivity. }
    rewrite E, Z.bits_0 in Hc. discriminate.
  - assert (E : Z.land a (Z.shiftl 1 pin) = 0).
    { apply Z.bits_inj'. intros n Hn.
      rewrite Z.land_spec, Z.bits_0, testbit_one_shifted by lia.
      destruct (Z.eqb_spec pin n) as [-> | _].
      - rewrite Hb. reflexivity.
      - apply andb_false_r. }
    rewrite E. reflexivity.
Qed.

Lemma set_then_clear (a pin : Z) :
  0 <= pin -> Z.testbit a pin = false ->
  Z.land (Z.lor a (Z.shiftl 1 pin)) (Z.lnot (Z.shiftl 1 pin)) = a.
Proof.
  intros Hp Hb. apply Z.bits_inj'. intros n Hn.
  rewrite Z.land_spec, Z.lor_spec, Z.lnot_spec, testbit_one_shifted by lia.
  destruct (Z.eqb_spec pin n) as [-> | _].
  - rewrite Hb. reflexivity.
  - rewrite orb_false_r. apply andb_true_r.
Qed.

Lemma clear_then_set (a pin : Z) :
  0 <= pin -> Z.testbit a pin = true ->
  Z.lor (Z.land a (Z.lnot (Z.shiftl 1 pin))) (Z.shiftl 1 pin) = a.
Proof.
  intros Hp Hb. apply Z.bits_inj'. intros n Hn.
  rewrite Z.lor_spec, Z.land_spec, Z.lnot_spec, testbit_one_shifted by lia.
  destruct (Z.eqb_spec pin n) as [-> | _].
  - rewrite Hb. reflexivity.
  - rewrite orb_false_r. apply andb_true_r.
Qed.

(** ** How the methods run *)

Lemma valid_port_cases (port : string) :
  valid_port port = true -> upper port = "A" \/ upper port = "B".
Proof.
  unfold valid_port, str_in. simpl. rewrite orb_false_r.
  intros H. apply orb_true_iff in H. destruct H as [H | H].
  - left. apply String.eqb_eq. exact H.
  - right. apply String.eqb_eq. exact H.
Qed.

Lemma pin_in_range_bounds (pin : Z) : pin_in_range pin = true -> 0 <= pin <= 7.
Proof. unfold pin_in_range. lia. Qed.

(** A register write is one [writebytes] of the write frame; it leaves the
    cached bytes alone whatever the wire does. *)
Lemma write_register_run (r : MCP23S17Register) (data : Z) (self : MCP23S17) :
  _write_register r data self =
  match spi_writebytes (write_frame (chip_select self) r data) (spi self) with
  | (res, d, t) => (res, with_spi d self, t)
  end.
Proof.
  unfold _write_register, bind, get, try_except, on_spi, zoom, raise,
    _build_command, write_frame, spi_writebytes.
  destruct self as [d cs a b]. simpl.
  destruct (fd_open d); [ destruct (line d (xfers d)) | ]; reflexivity.
Qed.

Lemma write_register_ok (k : nat) (r : MCP23S17Register) (data : Z) (self : MCP23S17) :
  healthy (S k) (spi self) = true ->
  _write_register r data self =
  (Return tt, tick self, [Writebytes (write_frame (chip_select self) r data)]).
Proof.
  intros H. rewrite write_register_run. unfold spi_writebytes, tick.
  simpl in H. apply andb_true_iff in H. destruct H as [H _].
  apply andb_true_iff in H. destruct H as [Hfd Hline].
  rewrite Hfd. destruct (line (spi self) (xfers (spi self))); [reflexivity | discriminate].
Qed.

Lemma write_register_fails (r : MCP23S17Register) (data : Z) (self : MCP23S17) :
  healthy 1 (spi self) = false ->
  result (_write_register r data self) = Raise OSError
  /\ port_a_state (final (_write_register r data self)) = port_a_state self
  /\ port_b_state (final (_write_register r data self)) = port_b_state self.
Proof.
  intros H. rewrite write_register_run. unfold spi_writebytes.
  simpl in H. rewrite andb_true_r in H.
  destruct (fd_open (spi self)); [ destruct (line (spi self) (xfers (spi self))) | ];
    try discriminate; repeat split.
Qed.

Lemma healthy_step (k : nat) (d : SpiDev) :
  healthy (S k) d = true -> healthy k (advance d) = true.
Proof. simpl. intros H. apply andb_true_iff in H. apply H. Qed.

Lemma spi_set_shadow (port : string) (v : Z) (self : MCP23S17) :
  spi (set_shadow port v self) = spi self.
Proof. unfold set_shadow. destruct (String.eqb (upper port) "A"); reflexivity. Qed.

Lemma chip_select_set_shadow (port : string) (v : Z) (self : MCP23S17) :
  chip_select (set_shadow port v self) = chip_select self.
Proof. unfold set_shadow. destruct (String.eqb (upper port) "A"); reflexivity. Qed.

Lemma shadow_set_shadow (port : string) (v : Z) (self : MCP23S17) :
  shadow port (set_shadow port v self) = v.
Proof. unfold shadow, set_shadow. destruct (String.eqb (upper port) "A"); reflexivity. Qed.

Lemma shadow_tick (port : string) (self : MCP23S17) :
  shadow port (tick self) = shadow port self.
Proof. reflexivity. Qed.

(** With a valid port and pin, [set_pin_high] stores the new byte in the
    cache and then writes it to the port's GPIO register. *)
Lemma set_pin_high_run (port : string) (pin : Z) (self : MCP23S17) :
  valid_port port = true -> pin_in_range pin = true ->
  set_pin_high port pin self =
  _write_register (gpio_of port) (shadow port (pin_high port pin self))
    (pin_high port pin self).
Proof.
  intros Hport Hpin. unfold set_pin_high. fold (valid_port port).
  rewrite Hport, Hpin. simpl negb. cbv iota.
  unfold pin_high, gpio_of, shadow, set_shadow.
  destruct (String.eqb (upper port) "A"); unfold bind, modify, get; simpl;
    match goal with |- context [_write_register ?r ?d ?s] =>
      destruct (_write_register r d s) as [[o s'] t] end; reflexivity.
Qed.

Lemma set_pin_low_run (port : string) (pin : Z) (self : MCP23S17) :
  valid_port port = true -> pin_in_range pin = true ->
  set_pin_low port pin self =
  _write_register (gpio_of port) (shadow port (pin_low port pin self))
    (pin_low port pin self).
Proof.
  intros Hport Hpin. unfold set_pin_low. fold (valid_port port).
  rewrite Hport, Hpin. simpl negb. cbv iota.
  unfold pin_low, gpio_of, shadow, set_shadow.
  destruct (String.eqb (upper port) "A"); unfold bind, modify, get; simpl;
    match goal with |- context [_write_register ?r ?d ?s] =>
      destruct (_write_register r d s) as [[o s'] t] end; reflexivity.
Qed.

Lemma set_pin_high_ok (k : nat) (port : string) (pin : Z) (self : MCP23S17) :
  valid_port port = true -> pin_in_range pin = true ->
  healthy (S k) (spi self) = true ->
  set_pin_high port pin self =
  (Return tt, tick (pin_high port pin self),
   [Writebytes (write_frame (chip_select self) (gpio_of port)
                  (shadow port (pin_high port pin self)))]).
Proof.
  intros Hport Hpin H. rewrite set_pin_high_run by assumption.
  rewrite (write_register_ok k).
  - unfold pin_high. rewrite chip_select_set_shadow. reflexivity.
  - unfold pin_high. rewrite spi_set_shadow. exact H.
Qed.

Lemma set_pin_low_ok (k : nat) (port : string) (pin : Z) (self : MCP23S17) :
  valid_port port = true -> pin_in_range pin = true ->
  healthy (S k) (spi self) = true ->
  set_pin_low port pin self =
  (Return tt, tick (pin_low port pin self),
   [Writebytes (write_frame (chip_select self) (gpio_of port)
                  (shadow port (pin_low port pin self)))]).
Proof.
  intros Hport Hpin H. rewrite set_pin_low_run by assumption.
  rewrite (write_register_ok k).
  - unfold pin_low. rewrite chip_select_set_shadow. reflexivity.
  - unfold pin_low. rewrite spi_set_shadow. exact H.
Qed.

Lemma write_register_keeps_shadow (r : MCP23S17Register) (data : Z)
    (port : string) (self : MCP23S17) :
  shadow port (final (_write_register r data self)) = shadow port self.
Proof.
  rewrite write_register_run.
  destruct (spi_writebytes _ (spi self)) as [[res d] t]. reflexivity.
Qed.

Lemma get_port_state_run (port : string) (self : MCP23S17) :
  valid_port port = true ->
  get_port_state port self = (Return (shadow port self), self, []).
Proof.
  intros Hport. unfold get_port_state. fold (valid_port port). rewrite Hport.
  unfold shadow, bind, get, ret. simpl.
  destruct (String.eqb (upper port) "A"); reflexivity.
Qed.

(** ** Register frames *)

(** C3. On an open handle whose next transfer goes through, a register
    write emits exactly one frame [command, address, data] with
    command = 0x40 | (chip_select << 1) | 0, and a register read emits
    exactly one frame [command, address, 0x00] whose command has bit 0 set
    and returns the third byte of the three-byte response. *)
Theorem register_frames (self : MCP23S17) (register : MCP23S17Register)
    (data r0 r1 r2 : Z) :
  fd_open (spi self) = true ->
  line (spi self) (xfers (spi self)) = Some [r0; r1; r2] ->
  let w := Z.lor (Z.lor 0x40 (Z.shiftl (chip_select self) 1)) 0 in
  let r := Z.lor (Z.lor 0x40 (Z.shiftl (chip_select self) 1)) 1 in
  trace (_write_register register data self) = [Writebytes [w; value register; data]]
  /\ result (_write_register register data self) = Return tt
  /\ trace (_read_register register self)
     = [Xfer2 [r; value register; 0x00] [r0; r1; r2]]
  /\ Z.testbit r 0 = true
  /\ result (_read_register register self) = Return r2.
Proof.
  intros Hfd Hline w r. subst w r.
  repeat split.
  - rewrite write_register_run. unfold spi_writebytes. rewrite Hfd, Hline. reflexivity.
  - rewrite write_register_run. unfold spi_writebytes. rewrite Hfd, Hline. reflexivity.
  - unfold _read_register, bind, get, try_except, on_spi, zoom, spi_xfer2, _build_command.
    simpl. rewrite Hfd, Hline. reflexivity.
  - rewrite Z.lor_spec. apply orb_true_r.
  - unfold _read_register, bind, get, try_except, on_spi, zoom, spi_xfer2, _build_command.
    simpl. rewrite Hfd, Hline. reflexivity.
Qed.

Lemma register_frames_witness :
  trace (_write_register GPIOB 0x08 chip_ok) = [Writebytes [0x40; 0x13; 0x08]]
  /\ result (_write_register GPIOB 0x08 chip_ok) = Return tt
  /\ trace (_read_register GPIOB chip_ok) = [Xfer2 [0x41; 0x13; 0x00] [0; 0; 0]]
  /\ Z.testbit 0x41 0 = true
  /\ result (_read_register GPIOB chip_ok) = Return 0.
Proof.
  exact (register_frames chip_ok GPIOB 0x08 0 0 0 eq_refl eq_refl).
Defined.

(** ** The cached port bytes *)

(** C1, counterexample.  On a handle whose transfer raises, [set_pin_high]
    on port A, pin 0, raises and leaves the cached byte changed from 0 to
    1: it is not put back, although no write went through and the GPIO
    register still holds 0. *)
Lemma failed_write_not_rolled_back :
  valid_port "A" = true /\ pin_in_range 0 = true
  /\ result (set_pin_high "A" 0 chip_dead) = Raise OSError
  /\ shadow "A" chip_dead = 0
  /\ shadow "A" (final (set_pin_high "A" 0 chip_dead)) = 1
  /\ shadow "A" (final (set_pin_high "A" 0 chip_dead)) <> shadow "A" chip_dead
  /\ trace (set_pin_high "A" 0 chip_dead) = [Fault [0x40; 0x12; 1]]
  /\ latched GPIOA 0 (trace (set_pin_high "A" 0 chip_dead)) = 0.
Proof.
  repeat split; try reflexivity. vm_compute. discriminate.
Qed.

(** C1, as amended.  For every valid port and pin and every level, if the
    register write issued by [set_pin] fails, the error reaches the caller
    and the cached byte of that port holds the newly computed value,
    [shadow | (1 << pin)] for high and [shadow & ~(1 << pin)] for low: the
    cache is updated before the write is issued and is not rolled back. *)
Theorem failed_write_keeps_new_shadow (port : string) (pin : Z) (level : bool)
    (self : MCP23S17) :
  valid_port port = true -> pin_in_range pin = true ->
  healthy 1 (spi self) = false ->
  result (set_pin port pin level self) = Raise OSError
  /\ shadow port (final (set_pin port pin level self))
     = if level then Z.lor (shadow port self) (Z.shiftl 1 pin)
       else Z.land (shadow port self) (Z.lnot (Z.shiftl 1 pin)).
Proof.
  intros Hport Hpin Hbad. unfold set_pin. destruct level.
  - rewrite set_pin_high_run by assumption.
    rewrite write_register_keeps_shadow.
    unfold pin_high. rewrite shadow_set_shadow.
    split; [ | reflexivity].
    apply write_register_fails. rewrite spi_set_shadow. exact Hbad.
  - rewrite set_pin_low_run by assumption.
    rewrite write_register_keeps_shadow.
    unfold pin_low. rewrite shadow_set_shadow.
    split; [ | reflexivity].
    apply write_register_fails. rewrite spi_set_shadow. exact Hbad.
Qed.

Lemma failed_write_keeps_new_shadow_witness :
  healthy 1 (spi chip_dead) = false
  /\ result (set_pin "b" 3 true chip_dead) = Raise OSError
  /\ shadow "b" (final (set_pin "b" 3 true chip_dead)) = 8.
Proof.
  split; [reflexivity | ].
  exact (failed_write_keeps_new_shadow "b" 3 true chip_dead eq_refl eq_refl eq_refl).
Defined.

(** C7. For every valid port and pin, after a successful [set_pin] with
    level true the byte [get_port_state] returns for that port has the
    pin's bit set, and after a successful [set_pin] with level false it has
    the bit clear; [get_port_state] makes no transfer and changes nothing. *)
Theorem set_pin_then_get_port_state (port : string) (pin : Z) (level : bool)
    (self : MCP23S17) :
  valid_port port = true -> pin_in_range pin = true ->
  result (set_pin port pin level self) = Return tt ->
  exists v,
    get_port_state port (final (set_pin port pin level self))
    = (Return v, final (set_pin port pin level self), [])
    /\ Z.testbit v pin = level.
Proof.
  intros Hport Hpin _. pose proof (pin_in_range_bounds pin Hpin) as Hb.
  exists (shadow port (final (set_pin port pin level self))). split.
  - apply get_port_state_run. exact Hport.
  - unfold set_pin. destruct level.
    + rewrite set_pin_high_run, write_register_keeps_shadow by assumption.
      unfold pin_high. rewrite shadow_set_shadow. apply lor_sets_bit. lia.
    + rewrite set_pin_low_run, write_register_keeps_shadow by assumption.
      unfold pin_low. rewrite shadow_set_shadow. apply land_clears_bit. lia.
Qed.

Lemma set_pin_then_get_port_state_witness :
  result (set_pin "A" 5 true chip_ok) = Return tt
  /\ exists v,
       get_port_state "A" (final (set_pin "A" 5 true chip_ok))
       = (Return v, final (set_pin "A" 5 true chip_ok), [])
       /\ Z.testbit v 5 = true.
Proof.
  split; [reflexivity | ].
  exact (set_pin_then_get_port_state "A" 5 true chip_ok eq_refl eq_refl eq_refl).
Defined.

Lemma set_pin_final (port : string) (pin : Z) (level : bool) (self : MCP23S17) :
  valid_port port = true -> pin_in_range pin = true ->
  exists d,
    final (set_pin port pin level self)
    = with_spi d (if level then pin_high port pin self else pin_low port pin self).
Proof.
  intros Hport Hpin. unfold set_pin. destruct level.
  - rewrite set_pin_high_run, write_register_run by assumption.
    destruct (spi_writebytes _ _) as [[res d] t]. exists d. reflexivity.
  - rewrite set_pin_low_run, write_register_run by assumption.
    destruct (spi_writebytes _ _) as [[res d] t]. exists d. reflexivity.
Qed.

Lemma upper_valid_port (port : string) :
  valid_port port = true -> upper (upper port) = upper port.
Proof.
  intros H. destruct (valid_port_cases port H) as [E | E]; rewrite E; reflexivity.
Qed.

(** [toggle_pin] reads the cached bit and calls the setter of the opposite
    level; what it returns is the negation of the bit it read. *)
Lemma toggle_pin_run (port : string) (pin : Z) (self : MCP23S17) :
  valid_port port = true -> pin_in_range pin = true ->
  toggle_pin port pin self =
  match set_pin port pin (negb (Z.testbit (shadow port self) pin)) self with
  | (Return _, s, t) => (Return (negb (Z.testbit (shadow port self) pin)), s, t ++ [])
  | (Raise e, s, t) => (Raise e, s, t)
  end.
Proof.
  intros Hport Hpin. pose proof (pin_in_range_bounds pin Hpin) as Hb.
  assert (Hup : valid_port (upper port) = true).
  { unfold valid_port. rewrite upper_valid_port by assumption. exact Hport. }
  assert (Hlow : set_pin_low (upper port) pin self = set_pin_low port pin self).
  { rewrite !set_pin_low_run by assumption.
    unfold pin_low, gpio_of, shadow, set_shadow.
    rewrite upper_valid_port by assumption. reflexivity. }
  assert (Hhigh : set_pin_high (upper port) pin self = set_pin_high port pin self).
  { rewrite !set_pin_high_run by assumption.
    unfold pin_high, gpio_of, shadow, set_shadow.
    rewrite upper_valid_port by assumption. reflexivity. }
  unfold toggle_pin. fold (valid_port port). rewrite Hport, Hpin. simpl negb. cbv iota.
  unfold shadow, set_pin.
  destruct (String.eqb (upper port) "A"); unfold bind, get; simpl;
    rewrite mask_reads_bit by lia;
    match goal with |- context [Z.testbit ?a pin] => destruct (Z.testbit a pin) end;
    simpl; rewrite ?Hlow, ?Hhigh;
    match goal with |- context [?f port pin self] =>
      destruct (f port pin self) as [[[[] | e] s] t] end; reflexivity.
Qed.

Lemma shadow_with_spi (port : string) (d : SpiDev) (self : MCP23S17) :
  shadow port (with_spi d self) = shadow port self.
Proof. reflexivity. Qed.

Lemma toggle_pin_final (port : string) (pin : Z) (self : MCP23S17) :
  valid_port port = true -> pin_in_range pin = true ->
  exists d,
    final (toggle_pin port pin self)
    = with_spi d (if Z.testbit (shadow port self) pin
                  then pin_low port pin self else pin_high port pin self).
Proof.
  intros Hport Hpin. rewrite toggle_pin_run by assumption.
  destruct (set_pin_final port pin (negb (Z.testbit (shadow port self) pin)) self
              Hport Hpin) as [d Hd].
  exists d. rewrite <- (negb_involutive (Z.testbit (shadow port self) pin)) at 2.
  destruct (negb (Z.testbit (shadow port self) pin)); simpl negb; cbv iota;
    rewrite <- Hd;
    match goal with |- context [set_pin ?p ?n ?l ?s] =>
      destruct (set_pin p n l s) as [[[[] | e] s'] t] end; reflexivity.
Qed.

Lemma toggle_pin_result (port : string) (pin : Z) (self : MCP23S17) (b : bool) :
  valid_port port = true -> pin_in_range pin = true ->
  result (toggle_pin port pin self) = Return b ->
  b = negb (Z.testbit (shadow port self) pin).
Proof.
  intros Hport Hpin. rewrite toggle_pin_run by assumption.
  destruct (set_pin _ _ _ _) as [[[[] | e] s'] t]; unfold result; simpl; congruence.
Qed.

(** C8. For every valid port and pin, two consecutive successful calls of
    [toggle_pin] leave both cached port bytes as they were before the first
    call, and each call returns the new level of the pin, which is the
    negation of the cached level before that call. *)
Theorem toggle_pin_twice (port : string) (pin : Z) (self : MCP23S17) (b1 b2 : bool) :
  valid_port port = true -> pin_in_range pin = true ->
  result (toggle_pin port pin self) = Return b1 ->
  result (toggle_pin port pin (final (toggle_pin port pin self))) = Return b2 ->
  let s1 := final (toggle_pin port pin self) in
  let s2 := final (toggle_pin port pin s1) in
  port_a_state s2 = port_a_state self
  /\ port_b_state s2 = port_b_state self
  /\ b1 = negb (Z.testbit (shadow port self) pin)
  /\ b1 = Z.testbit (shadow port s1) pin
  /\ b2 = negb (Z.testbit (shadow port s1) pin)
  /\ b2 = Z.testbit (shadow port s2) pin.
Proof.
  intros Hport Hpin H1 H2 s1 s2.
  pose proof (pin_in_range_bounds pin Hpin) as Hb.
  apply toggle_pin_result in H1; [ | assumption | assumption].
  apply toggle_pin_result in H2; [ | assumption | assumption].
  fold s1 in H2.
  destruct (toggle_pin_final port pin self Hport Hpin) as [d1 E1]. fold s1 in E1.
  destruct (toggle_pin_final port pin s1 Hport Hpin) as [d2 E2]. fold s2 in E2.
  assert (Hs1 : Z.testbit (shadow port s1) pin = negb (Z.testbit (shadow port self) pin)).
  { rewrite E1. destruct (Z.testbit (shadow port self) pin);
      unfold pin_low, pin_high; rewrite shadow_with_spi;
      rewrite shadow_set_shadow; simpl negb.
    - apply land_clears_bit. lia.
    - apply lor_sets_bit. lia. }
  assert (Hs2 : shadow port s2 = shadow port self).
  { rewrite E2, Hs1, E1.
    destruct (Z.testbit (shadow port self) pin) eqn:Hbit; simpl negb; cbv iota;
      unfold pin_low, pin_high;
      repeat (rewrite shadow_with_spi || rewrite shadow_set_shadow).
    - apply clear_then_set; [lia | exact Hbit].
    - apply set_then_clear; [lia | exact Hbit]. }
  assert (Hab : port_a_state s2 = port_a_state self /\ port_b_state s2 = port_b_state self).
  { assert (F1 : exists v1, s1 = with_spi d1 (set_shadow port v1 self)).
    { rewrite E1. destruct (Z.testbit (shadow port self) pin); eexists; reflexivity. }
    assert (F2 : exists v2, s2 = with_spi d2 (set_shadow port v2 s1)).
    { rewrite E2. destruct (Z.testbit (shadow port s1) pin); eexists; reflexivity. }
    destruct F1 as [v1 F1]. destruct F2 as [v2 F2].
    revert Hs2. rewrite F2, shadow_with_spi, shadow_set_shadow. intros ->.
    rewrite F1. unfold set_shadow, shadow.
    destruct (String.eqb (upper port) "A"); split; reflexivity. }
  destruct Hab as [Ha Hb'].
  repeat split.
  - exact Ha.
  - exact Hb'.
  - exact H1.
  - rewrite Hs1. exact H1.
  - exact H2.
  - rewrite Hs2, H2, Hs1. apply negb_involutive.
Qed.

Lemma toggle_pin_twice_witness :
  port_a_state (final (toggle_pin "a" 3 (final (toggle_pin "a" 3 chip_ok))))
  = port_a_state chip_ok
  /\ result (toggle_pin "a" 3 chip_ok) = Return true
  /\ result (toggle_pin "a" 3 (final (toggle_pin "a" 3 chip_ok))) = Return false.
Proof.
  split; [ | split; reflexivity].
  exact (proj1 (toggle_pin_twice "a" 3 chip_ok true false
                  eq_refl eq_refl eq_refl eq_refl)).
Defined.

(** ** A single press *)

Lemma pin_high_tick (port : string) (pin : Z) (self : MCP23S17) :
  pin_high port pin (tick self) = tick (pin_high port pin self).
Proof.
  unfold pin_high, set_shadow, shadow.
  destruct (String.eqb (upper port) "A"); reflexivity.
Qed.

Lemma pin_low_tick (port : string) (pin : Z) (self : MCP23S17) :
  pin_low port pin (tick self) = tick (pin_low port pin self).
Proof.
  unfold pin_low, set_shadow, shadow.
  destruct (String.eqb (upper port) "A"); reflexivity.
Qed.

Lemma chip_select_tick (self : MCP23S17) : chip_select (tick self) = chip_select self.
Proof. reflexivity. Qed.

Lemma chip_select_pin_high (port : string) (pin : Z) (self : MCP23S17) :
  chip_select (pin_high port pin self) = chip_select self.
Proof. apply chip_select_set_shadow. Qed.

Lemma chip_select_pin_low (port : string) (pin : Z) (self : MCP23S17) :
  chip_select (pin_low port pin self) = chip_select self.
Proof. apply chip_select_set_shadow. Qed.

Lemma healthy_tick_set (k : nat) (port : string) (v : Z) (self : MCP23S17) :
  healthy (S k) (spi self) = true ->
  healthy k (spi (tick (set_shadow port v self))) = true.
Proof.
  intros H. unfold tick. simpl spi. rewrite spi_set_shadow.
  apply healthy_step. exact H.
Qed.

Lemma sleep_accepts_in_range (d : Q) :
  sleep_accepts d = true ->
  Qle_bool ns_floor d = true /\ Qle_bool ns_ceiling d = false
  /\ Qle_bool 0 d = true /\ Qle_bool d sleep_limit = true.
Proof.
  unfold sleep_accepts. intros H. apply andb_true_iff in H. destruct H as [H0 Hl].
  repeat split; try assumption.
  - apply Qle_bool_iff. apply Qle_bool_iff in H0.
    apply (Qle_trans _ 0); [discriminate | exact H0].
  - destruct (Qle_bool ns_ceiling d) eqn:E; [ | reflexivity].
    apply Qle_bool_iff in E. apply Qle_bool_iff in Hl.
    pose proof (Qle_trans _ _ _ E Hl) as C. exfalso. apply C. reflexivity.
Qed.

Lemma time_sleep_ok {S} (d : Q) (s : S) :
  sleep_accepts d = true -> time_sleep d s = (Return tt, s, [Sleep d]).
Proof.
  intros H. apply sleep_accepts_in_range in H. destruct H as (Hf & Hc & H0 & Hl).
  unfold time_sleep. rewrite Hf, Hc, H0, Hl. reflexivity.
Qed.

(** A sleep either happens, with one event and the state as it was, or
    raises with no event and the state as it was; which one depends on the
    duration alone. *)
Lemma time_sleep_cases (d : Q) :
  (forall S (s : S), time_sleep d s = (Return tt, s, [Sleep d]))
  \/ (exists e, forall S (s : S), time_sleep d s = (Raise e, s, [])).
Proof.
  unfold time_sleep.
  destruct (negb (Qle_bool ns_floor d) || Qle_bool ns_ceiling d);
    [right; eexists; reflexivity | ].
  destruct (negb (Qle_bool 0 d)); [right; eexists; reflexivity | ].
  destruct (Qle_bool d sleep_limit); [left; reflexivity | right; eexists; reflexivity].
Qed.

(** A negative duration that fits in 64-bit nanoseconds is refused with
    [ValueError]. *)
Lemma time_sleep_negative {S} (d : Q) (s : S) :
  Qle_bool ns_floor d = true -> Qle_bool 0 d = false ->
  time_sleep d s = (Raise (ValueError "sleep length must be non-negative"), s, []).
Proof.
  intros Hf H0. unfold time_sleep. rewrite Hf, H0.
  destruct (Qle_bool ns_ceiling d) eqn:E; [ | reflexivity].
  apply Qle_bool_iff in E.
  assert (C : Qle_bool 0 d = true).
  { apply Qle_bool_iff. apply (Qle_trans _ ns_ceiling); [discriminate | exact E]. }
  rewrite C in H0. discriminate H0.
Qed.

(** With valid ports and pins, a duration that is slept and four transfers
    that go through, [pulse_row_column] is four register writes around one
    sleep. *)
Lemma pulse_row_column_ok (k : nat) (row col : Z) (rp cp : string) (d : Q)
    (self : MCP23S17) :
  valid_port rp = true -> valid_port cp = true ->
  pin_in_range row = true -> pin_in_range col = true ->
  sleep_accepts d = true ->
  healthy (4 + k) (spi self) = true ->
  let cs := chip_select self in
  let s1 := pin_high rp row self in
  let s2 := pin_high cp col s1 in
  let s3 := pin_low rp row s2 in
  let s4 := pin_low cp col s3 in
  pulse_row_column row col rp cp d self =
  (Return tt, tick (tick (tick (tick s4))),
   [Writebytes (write_frame cs (gpio_of rp) (shadow rp s1));
    Writebytes (write_frame cs (gpio_of cp) (shadow cp s2));
    Sleep d;
    Writebytes (write_frame cs (gpio_of rp) (shadow rp s3));
    Writebytes (write_frame cs (gpio_of cp) (shadow cp s4))]).
Proof.
  intros Hrp Hcp Hrow Hcol Hd H cs s1 s2 s3 s4.
  assert (H1 : healthy (S (2 + k)) (spi (tick s1)) = true)
    by (apply healthy_tick_set; exact H).
  assert (H2 : healthy (S (1 + k)) (spi (tick (pin_high cp col (tick s1)))) = true)
    by (apply healthy_tick_set; exact H1).
  assert (H3 : healthy (S k)
                 (spi (tick (pin_low rp row (tick (pin_high cp col (tick s1)))))) = true)
    by (apply healthy_tick_set; exact H2).
  unfold pulse_row_column, bind.
  rewrite (set_pin_high_ok (3 + k)) by assumption.
  rewrite (set_pin_high_ok (2 + k)) by assumption.
  rewrite time_sleep_ok by assumption.
  rewrite (set_pin_low_ok (1 + k)) by assumption.
  rewrite (set_pin_low_ok k) by assumption.
  repeat (rewrite pin_high_tick || rewrite pin_low_tick).
  repeat (rewrite chip_select_tick || rewrite chip_select_pin_high
          || rewrite chip_select_pin_low || rewrite shadow_tick).
  reflexivity.
Qed.

(** On a position of the matrix, [press_button] is [pulse_row_column] on
    the expander it holds, with the configured ports. *)
Lemma press_button_run (self : MatrixController) (row col : Z) (duration : Q) :
  valid_position self (row, col) = true ->
  press_button row col duration self
  = on_mcp (pulse_row_column row col (row_port self) (col_port self) duration) self.
Proof.
  unfold valid_position. simpl. intros Hpos.
  unfold press_button, bind, get. rewrite Hpos. simpl.
  destruct (on_mcp _ self) as [[o s] t]. reflexivity.
Qed.




(** C5. For every row and column outside the configured matrix (negative,
    or at least [num_rows] or [num_cols]), [press_button] raises
    [ValueError] before any bus access: no event at all, and the whole
    controller, both cached port bytes included, is unchanged. *)
Theorem press_button_rejects_invalid_position (self : MatrixController)
    (row col : Z) (duration : Q) :
  row < 0 \/ num_rows self <= row \/ col < 0 \/ num_cols self <= col ->
  press_button row col duration self
  = (Raise (ValueError "Invalid matrix position"), self, []).
Proof.
  intros Hbad.
  assert (Hpos : (0 <=? row) && (row <? num_rows self)
                 && ((0 <=? col) && (col <? num_cols self)) = false) by lia.
  unfold press_button, bind, get. rewrite Hpos. reflexivity.
Qed.

Lemma press_button_rejects_invalid_position_witness :
  press_button 4 0 (1 # 10) matrix_4x4
  = (Raise (ValueError "Invalid matrix position"), matrix_4x4, []).
Proof.
  apply press_button_rejects_invalid_position. right. left. simpl. lia.
Defined.

(** ** Sequences of presses *)

Lemma bind_ext {S A B} (m : Py S A) (k1 k2 : A -> Py S B) (s : S) :
  (forall a s', k1 a s' = k2 a s') -> bind m k1 s = bind m k2 s.
Proof.
  intros H. unfold bind. destruct (m s) as [[[a | e] s1] t1]; [ | reflexivity].
  rewrite H. reflexivity.
Qed.

(** The loop of [matrix_sequence], started at index [i] with [n - i]
    positions left, is the runner of the specification over
    [pulse_row_column]. *)
Lemma matrix_sequence_from_in_order (rp cp : string) (d itv : Q) (n : Z)
    (rest : list (Z * Z)) :
  forall (i : Z) (self : MCP23S17),
    n = i + Z.of_nat (List.length rest) ->
    matrix_sequence_from n i rest rp cp d itv self
    = press_each_in_order (fun row col => pulse_row_column row col rp cp d)
        rest itv self.
Proof.
  induction rest as [ | [row col] rest IH]; intros i self Hn.
  - reflexivity.
  - cbn [matrix_sequence_from press_each_in_order].
    apply bind_ext. intros _ s1.
    destruct rest as [ | p rest'].
    + replace (i <? n - 1) with false by (simpl in Hn; lia). reflexivity.
    + replace (i <? n - 1) with true
        by (cbn [List.length] in Hn; lia).
      apply bind_ext. intros _ s2. apply IH.
      cbn [List.length] in Hn |- *. lia.
Qed.

Lemma press_sequence_run (buttons : list (Z * Z)) (d itv : Q) (self : MatrixController) :
  press_sequence buttons d itv self
  = on_mcp (press_each_in_order
              (fun row col => pulse_row_column row col (row_port self) (col_port self) d)
              buttons itv) self.
Proof.
  unfold press_sequence, bind, get. simpl.
  unfold on_mcp, zoom, matrix_sequence.
  rewrite matrix_sequence_from_in_order by lia.
  destruct (press_each_in_order _ buttons itv (mcp self)) as [[o s] t]. reflexivity.
Qed.

(** On positions of the matrix, pressing through the expander and pressing
    through [press_button] are the same runs. *)
Lemma press_each_via_press_button (d itv : Q) (buttons : list (Z * Z)) :
  forall self : MatrixController,
    forallb (valid_position self) buttons = true ->
    on_mcp (press_each_in_order
              (fun row col => pulse_row_column row col (row_port self) (col_port self) d)
              buttons itv) self
    = press_each_in_order (fun row col => press_button row col d) buttons itv self.
Proof.
  induction buttons as [ | [row col] rest IH]; intros self Hall.
  - destruct self. reflexivity.
  - cbn [forallb] in Hall. apply andb_true_iff in Hall. destruct Hall as [Hpos Hrest].
    cbn [press_each_in_order].
    unfold on_mcp, zoom, bind.
    rewrite press_button_run by exact Hpos.
    unfold on_mcp, zoom.
    destruct (pulse_row_column row col (row_port self) (col_port self) d (mcp self))
      as [[[[] | e] m1] t1]; [ | reflexivity].
    destruct rest as [ | p rest'].
    + reflexivity.
    + destruct (time_sleep_cases itv) as [Hs | [e Hs]]; rewrite !Hs; [ | reflexivity].
      rewrite <- (IH (with_mcp m1 self)) by exact Hrest.
      unfold on_mcp, zoom.
      cbn [row_port col_port mcp with_mcp num_rows num_cols].
      match goal with |- context [press_each_in_order ?f (p :: rest') itv ?m] =>
        destruct (press_each_in_order f (p :: rest') itv m) as [[o m2] t2] end.
      reflexivity.
Qed.

(** C2, at the failing input.  On a 4x4 matrix the position (5, 0) is
    invalid and [press_button] refuses it, but [press_sequence] on
    [(5, 0); (1, 1)] raises nothing: it presses (5, 0) with four bus
    writes, sleeps, and goes on to press (1, 1). *)
Theorem press_sequence_skips_position_check :
  valid_position matrix_4x4 (5, 0) = false
  /\ press_button 5 0 (1 # 10) matrix_4x4
     = (Raise (ValueError "Invalid matrix position"), matrix_4x4, [])
  /\ result (press_sequence [(5, 0); (1, 1)] (1 # 10) (2 # 10) matrix_4x4) = Return tt
  /\ trace (press_sequence [(5, 0); (1, 1)] (1 # 10) (2 # 10) matrix_4x4)
     = [Writebytes [0x40; 0x12; 0x20]; Writebytes [0x40; 0x13; 0x01];
        Sleep (1 # 10);
        Writebytes [0x40; 0x12; 0x00]; Writebytes [0x40; 0x13; 0x00];
        Sleep (2 # 10);
        Writebytes [0x40; 0x12; 0x02]; Writebytes [0x40; 0x13; 0x02];
        Sleep (1 # 10);
        Writebytes [0x40; 0x12; 0x00]; Writebytes [0x40; 0x13; 0x00]].
Proof.
  repeat split; reflexivity.
Qed.

(** C6. [press_sequence] on the empty list returns at once with no event
    and an unchanged controller.  On any list it is the runner of the
    specification, [press_each_in_order], over the expander's press: each
    position in the order given, a sleep of [interval] after every press
    except the last.  When every position lies in the configured matrix,
    it is the same runner over [press_button]. *)
Theorem press_sequence_in_order (self : MatrixController) (buttons : list (Z * Z))
    (duration interval : Q) :
  forallb (valid_position self) buttons = true ->
  press_sequence [] duration interval self = (Return tt, self, [])
  /\ press_sequence buttons duration interval self
     = on_mcp (press_each_in_order
                 (fun row col =>
                    pulse_row_column row col (row_port self) (col_port self) duration)
                 buttons interval) self
  /\ press_sequence buttons duration interval self
     = press_each_in_order (fun row col => press_button row col duration)
         buttons interval self.
Proof.
  intros Hall. split; [ | split].
  - destruct self. reflexivity.
  - apply press_sequence_run.
  - rewrite press_sequence_run. apply press_each_via_press_button. exact Hall.
Qed.

Lemma press_sequence_in_order_witness :
  press_sequence [(0, 0); (1, 1)] (1 # 10) (2 # 10) matrix_4x4
  = press_each_in_order (fun row col => press_button row col (1 # 10))
      [(0, 0); (1, 1)] (2 # 10) matrix_4x4
  /\ trace (press_sequence [(0, 0); (1, 1)] (1 # 10) (2 # 10) matrix_4x4)
     = [Writebytes [0x40; 0x12; 0x01]; Writebytes [0x40; 0x13; 0x01];
        Sleep (1 # 10);
        Writebytes [0x40; 0x12; 0x00]; Writebytes [0x40; 0x13; 0x00];
        Sleep (2 # 10);
        Writebytes [0x40; 0x12; 0x02]; Writebytes [0x40; 0x13; 0x02];
        Sleep (1 # 10);
        Writebytes [0x40; 0x12; 0x00]; Writebytes [0x40; 0x13; 0x00]].
Proof.
  split; [ | reflexivity].
  exact (proj2 (proj2 (press_sequence_in_order matrix_4x4 [(0, 0); (1, 1)]
                         (1 # 10) (2 # 10) eq_refl))).
Defined.

(** ** Shutdown *)

Lemma write_command_bit0 (cs : Z) :
  Z.testbit (Z.lor (Z.lor 0x40 (Z.shiftl cs 1)) 0) 0 = false.
Proof.
  rewrite !Z.lor_spec. rewrite Z.shiftl_spec_low by lia. reflexivity.
Qed.

Lemma latch_write_frame (r r' : MCP23S17Register) (cs v data : Z) :
  latch (value r) v (Writebytes (write_frame cs r' data))
  = if value r' =? value r then data else v.
Proof.
  unfold latch, write_frame. rewrite write_command_bit0.
  rewrite andb_true_r. reflexivity.
Qed.

(** After the two zero writes of [cleanup], followed or not by the release
    of the handle, a GPIO register holds zero. *)
Lemma latched_after_zero_writes (r : MCP23S17Register) (cs v : Z) (tl : list event) :
  r = GPIOA \/ r = GPIOB ->
  tl = [] \/ tl = [Close] ->
  latched r v (Writebytes (write_frame cs GPIOA 0x00)
               :: Writebytes (write_frame cs GPIOB 0x00) :: tl) = 0x00.
Proof.
  intros Hr Htl. unfold latched. cbn [fold_left].
  rewrite !latch_write_frame.
  destruct Hr as [-> | ->]; destruct Htl as [-> | ->]; reflexivity.
Qed.

(** The handler of [cleanup] swallows every exception. *)
Lemma cleanup_never_raises (self : MCP23S17) : result (cleanup self) = Return tt.
Proof.
  unfold cleanup, try_except, ret.
  match goal with |- context [bind ?m ?k self] =>
    destruct (bind m k self) as [[[[] | e] s] t] end; reflexivity.
Qed.

(** [cleanup] writes to the handle only: the cached bytes stay. *)
Lemma cleanup_keeps_cache (self : MCP23S17) :
  port_a_state (final (cleanup self)) = port_a_state self
  /\ port_b_state (final (cleanup self)) = port_b_state self.
Proof.
  unfold cleanup, try_except, bind, ret, on_spi, zoom.
  rewrite write_register_run.
  destruct (spi_writebytes _ (spi self)) as [[[[] | e1] d1] t1]; [ | split; reflexivity].
  rewrite write_register_run.
  destruct (spi_writebytes _ (spi (with_spi d1 self))) as [[[[] | e2] d2] t2];
    [ | split; reflexivity].
  destruct (spi_close (spi (with_spi d2 (with_spi d1 self)))) as [[[[] | e3] d3] t3];
    split; reflexivity.
Qed.

(** On a bus whose next two transfers go through and whose handle can be
    released, [cleanup] writes zero to both GPIO registers and closes. *)
Lemma cleanup_ok (self : MCP23S17) :
  healthy 2 (spi self) = true -> close_ok (spi self) = true ->
  cleanup self =
  (Return tt,
   with_spi (mkSpiDev false (line (spi self)) (S (S (xfers (spi self)))) true) self,
   [Writebytes (write_frame (chip_select self) GPIOA 0x00);
    Writebytes (write_frame (chip_select self) GPIOB 0x00);
    Close]).
Proof.
  intros H Hclose.
  pose proof (healthy_step 1 _ H) as H1.
  assert (Hfd : fd_open (spi self) = true).
  { simpl in H. apply andb_true_iff in H. destruct H as [H _].
    apply andb_true_iff in H. apply H. }
  unfold cleanup, try_except, bind.
  rewrite (write_register_ok 1) by exact H.
  rewrite (write_register_ok 0) by exact H1.
  unfold on_spi, zoom, spi_close, tick. simpl.
  rewrite Hfd, Hclose. reflexivity.
Qed.

Lemma cleanup_on_closed_handle (self : MCP23S17) :
  fd_open (spi self) = false ->
  cleanup self = (Return tt, with_spi (spi self) self, []).
Proof.
  intros Hfd. unfold cleanup, try_except, bind. rewrite write_register_run.
  unfold spi_writebytes. rewrite Hfd. reflexivity.
Qed.

(** C9. On a bus whose next two transfers go through and whose handle can
    be released, [cleanup] writes 0x00 to GPIOA and to GPIOB whatever the
    cached bytes are, and releases the handle.  A second [cleanup] right
    after it raises nothing and makes no transfer, and both GPIO registers
    hold 0x00 after the first call and after the second.  No call of
    [cleanup], on any object, raises. *)
Theorem cleanup_twice (self : MCP23S17) (a b : Z) :
  healthy 2 (spi self) = true -> close_ok (spi self) = true ->
  let r1 := cleanup self in
  let r2 := cleanup (final r1) in
  result r1 = Return tt
  /\ trace r1 = [Writebytes (write_frame (chip_select self) GPIOA 0x00);
                 Writebytes (write_frame (chip_select self) GPIOB 0x00);
                 Close]
  /\ fd_open (spi (final r1)) = false
  /\ result r2 = Return tt
  /\ trace r2 = []
  /\ latched GPIOA a (trace r1) = 0x00
  /\ latched GPIOB b (trace r1) = 0x00
  /\ latched GPIOA a (trace r1 ++ trace r2) = 0x00
  /\ latched GPIOB b (trace r1 ++ trace r2) = 0x00
  /\ (forall other : MCP23S17, result (cleanup other) = Return tt).
Proof.
  intros H Hclose r1 r2.
  assert (E1 : r1 = cleanup self) by reflexivity.
  rewrite (cleanup_ok self H Hclose) in E1.
  assert (E2 : r2 = cleanup (final r1)) by reflexivity.
  rewrite cleanup_on_closed_handle in E2 by (rewrite E1; reflexivity).
  rewrite E2, E1. unfold result, trace, final. cbn [fst snd app spi with_spi fd_open].
  repeat split; try (apply latched_after_zero_writes; auto).
  apply cleanup_never_raises.
Qed.

Lemma cleanup_twice_witness :
  result (cleanup (mkMCP23S17 dev_ok 0 0x02 0x08)) = Return tt
  /\ trace (cleanup (mkMCP23S17 dev_ok 0 0x02 0x08))
     = [Writebytes [0x40; 0x12; 0x00]; Writebytes [0x40; 0x13; 0x00]; Close]
  /\ result (cleanup (final (cleanup (mkMCP23S17 dev_ok 0 0x02 0x08)))) = Return tt.
Proof.
  pose proof (cleanup_twice (mkMCP23S17 dev_ok 0 0x02 0x08) 0x02 0x08 eq_refl eq_refl)
    as W.
  split; [exact (proj1 W) | split].
  - exact (proj1 (proj2 W)).
  - exact (proj1 (proj2 (proj2 (proj2 W)))).
Defined.

(** C10. [cleanup] leaves both cached bytes as they were.  On a bus where
    its two writes go through, the GPIO register of a port then holds 0x00
    while [get_port_state] still returns the byte cached before the
    shutdown, so a non-zero cached byte differs from the physical port. *)
Theorem cleanup_keeps_shadows (self : MCP23S17) (port : string) (v : Z) :
  valid_port port = true ->
  healthy 2 (spi self) = true ->
  shadow port self <> 0 ->
  let r := cleanup self in
  port_a_state (final r) = port_a_state self
  /\ port_b_state (final r) = port_b_state self
  /\ result (get_port_state port (final r)) = Return (shadow port self)
  /\ trace (get_port_state port (final r)) = []
  /\ latched (gpio_of port) v (trace r) = 0x00
  /\ shadow port self <> latched (gpio_of port) v (trace r).
Proof.
  intros Hport H Hnz r.
  destruct (cleanup_keeps_cache self) as [Ha Hb]. fold r in Ha, Hb.
  assert (Hs : shadow port (final r) = shadow port self).
  { unfold shadow. rewrite Ha, Hb. reflexivity. }
  assert (Hl : latched (gpio_of port) v (trace r) = 0x00).
  { unfold r, cleanup, try_except, bind.
    pose proof (healthy_step 1 _ H) as H1.
    rewrite (write_register_ok 1) by exact H.
    rewrite (write_register_ok 0) by exact H1.
    unfold on_spi, zoom.
    assert (Hr : gpio_of port = GPIOA \/ gpio_of port = GPIOB)
      by (unfold gpio_of; destruct (String.eqb (upper port) "A"); auto).
    unfold on_spi, zoom, spi_close.
    destruct (fd_open _); [destruct (close_ok _) | ];
      unfold trace; cbn [fst snd app];
      apply latched_after_zero_writes; auto. }
  rewrite get_port_state_run by exact Hport.
  rewrite Hs, Hl.
  repeat split; assumption.
Qed.

Lemma cleanup_keeps_shadows_witness :
  result (get_port_state "A" (final (cleanup (mkMCP23S17 dev_ok 0 0x02 0x08))))
  = Return 0x02
  /\ latched GPIOA 0x02 (trace (cleanup (mkMCP23S17 dev_ok 0 0x02 0x08))) = 0x00.
Proof.
  pose proof (cleanup_keeps_shadows (mkMCP23S17 dev_ok 0 0x02 0x08) "A" 0x02
                eq_refl eq_refl ltac:(simpl; discriminate)) as W.
  split.
  - exact (proj1 (proj2 (proj2 W))).
  - exact (proj1 (proj2 (proj2 (proj2 (proj2 W))))).
Defined.

(** ** Start-up *)

Lemma healthy_fd_open (k : nat) (d : SpiDev) :
  healthy (S k) d = true -> fd_open d = true.
Proof.
  simpl. intros H. apply andb_true_iff in H. destruct H as [H _].
  apply andb_true_iff in H. apply H.
Qed.

(** X1. On a bus whose next six transfers go through, [_initialize_chip] writes
    zero to IODIRA, IODIRB, GPPUA, GPPUB, GPIOA and GPIOB, in this order and
    nothing else, and leaves both cached bytes at zero, in step with the
    GPIO registers. *)
Theorem initialize_chip_ok (self : MCP23S17) (ga gb : Z) :
  healthy 6 (spi self) = true ->
  let cs := chip_select self in
  let r := _initialize_chip self in
  result r = Return tt
  /\ trace r = [Writebytes (write_frame cs IODIRA 0x00);
                Writebytes (write_frame cs IODIRB 0x00);
                Writebytes (write_frame cs GPPUA 0x00);
                Writebytes (write_frame cs GPPUB 0x00);
                Writebytes (write_frame cs GPIOA 0x00);
                Writebytes (write_frame cs GPIOB 0x00)]
  /\ port_a_state (final r) = 0x00
  /\ port_b_state (final r) = 0x00
  /\ in_step (final r) (latched GPIOA ga (trace r)) (latched GPIOB gb (trace r)).
Proof.
  intros H cs r.
  pose proof (healthy_step 5 _ H) as H1.
  pose proof (healthy_step 4 _ H1) as H2.
  pose proof (healthy_step 3 _ H2) as H3.
  pose proof (healthy_step 2 _ H3) as H4.
  pose proof (healthy_step 1 _ H4) as H5.
  assert (E : r = _initialize_chip self) by reflexivity.
  unfold _initialize_chip, try_except, bind in E.
  rewrite (write_register_ok 5) in E by exact H.
  rewrite (write_register_ok 4) in E by exact H1.
  rewrite (write_register_ok 3) in E by exact H2.
  rewrite (write_register_ok 2) in E by exact H3.
  rewrite (write_register_ok 1) in E by exact H4.
  rewrite (write_register_ok 0) in E by exact H5.
  unfold modify in E. cbn [app] in E.
  rewrite E. unfold result, trace, final, in_step, latched.
  cbn [fst snd fold_left port_a_state port_b_state with_port_a_state
       with_port_b_state tick with_spi chip_select].
  rewrite !latch_write_frame. fold cs.
  repeat split.
Qed.

Lemma initialize_chip_ok_witness :
  result (MCP23S17__init__ dev_ok 1) = Return tt
  /\ writes (trace (MCP23S17__init__ dev_ok 1))
     = [[0x42; 0x00; 0]; [0x42; 0x01; 0]; [0x42; 0x0C; 0]; [0x42; 0x0D; 0];
        [0x42; 0x12; 0]; [0x42; 0x13; 0]].
Proof.
  pose proof (initialize_chip_ok (mkMCP23S17 dev_ok 1 0 0) 0x55 0xAA eq_refl) as W.
  split; [exact (proj1 W) | reflexivity].
Defined.

(** X2. If one of the six start-up transfers fails, [_initialize_chip] raises
    the transport's error and leaves both cached bytes as they were. *)
Theorem initialize_chip_failure (self : MCP23S17) :
  healthy 6 (spi self) = false ->
  let r := _initialize_chip self in
  result r = Raise OSError
  /\ port_a_state (final r) = port_a_state self
  /\ port_b_state (final r) = port_b_state self.
Proof.
  intros H r. subst r.
  unfold _initialize_chip, try_except, bind, modify, raise.
  destruct self as [[fd ln x co] cs a b].
  cbn [spi healthy fd_open line xfers advance] in H.
  destruct fd;
    [ | rewrite write_register_run; unfold spi_writebytes; repeat split].
  repeat (rewrite write_register_run; unfold spi_writebytes;
          cbn [spi fd_open line xfers with_spi advance chip_select];
          match goal with
          | |- context [match ln ?n with _ => _ end] => destruct (ln n)
          end;
          [ | repeat split]).
  discriminate H.
Qed.

Lemma initialize_chip_failure_witness :
  result (_initialize_chip chip_dead) = Raise OSError
  /\ port_a_state (final (_initialize_chip chip_dead)) = 0
  /\ port_b_state (final (_initialize_chip chip_dead)) = 0.
Proof.
  exact (initialize_chip_failure chip_dead eq_refl).
Defined.

(** ** Whole-port writes *)

Lemma set_port_run (port : string) (v : Z) (self : MCP23S17) :
  valid_port port = true -> in_byte v = true ->
  set_port port v self = _write_register (gpio_of port) v (set_shadow port v self).
Proof.
  intros Hport Hv. unfold set_port. fold (valid_port port). fold (in_byte v).
  rewrite Hport, Hv. cbn [negb].
  unfold gpio_of, set_shadow.
  destruct (String.eqb (upper port) "A"); unfold bind, modify;
    match goal with |- context [_write_register ?r ?d ?s] =>
      destruct (_write_register r d s) as [[o s'] t] end; reflexivity.
Qed.

(** X3. For a valid port and a byte [v], [get_port_state] after [set_port]
    returns [v] whether or not the write went through; the other port's
    cached byte is untouched, and a write that went through carried
    exactly [v] to the port's GPIO register. *)
Theorem set_port_then_get_port_state (port : string) (v : Z) (self : MCP23S17) :
  valid_port port = true -> in_byte v = true ->
  let r := set_port port v self in
  get_port_state port (final r) = (Return v, final r, [])
  /\ port_a_state (final r)
     = (if String.eqb (upper port) "A" then v else port_a_state self)
  /\ port_b_state (final r)
     = (if String.eqb (upper port) "A" then port_b_state self else v)
  /\ (result r = Return tt ->
      trace r = [Writebytes (write_frame (chip_select self) (gpio_of port) v)]).
Proof.
  intros Hport Hv r. subst r.
  rewrite get_port_state_run by exact Hport.
  rewrite set_port_run by assumption.
  rewrite write_register_keeps_shadow, shadow_set_shadow.
  rewrite write_register_run, chip_select_set_shadow.
  unfold spi_writebytes, set_shadow.
  destruct (String.eqb (upper port) "A");
    cbn [spi with_port_a_state with_port_b_state];
    (destruct (fd_open (spi self)); [destruct (line (spi self) (xfers (spi self))) | ]);
    repeat split; try reflexivity; intros Hres; discriminate Hres.
Qed.

Lemma set_port_then_get_port_state_witness :
  get_port_state "B" (final (set_port "B" 0xAA chip_dead))
  = (Return 0xAA, final (set_port "B" 0xAA chip_dead), [])
  /\ port_a_state (final (set_port "B" 0xAA chip_dead)) = 0.
Proof.
  pose proof (set_port_then_get_port_state "B" 0xAA chip_dead eq_refl eq_refl) as W.
  split; [exact (proj1 W) | exact (proj1 (proj2 W))].
Defined.

(** ** Arguments are checked before anything happens *)

Lemma bind_raised {S A B} (m : Py S A) (k : A -> Py S B) (s s' : S) (e : exn)
    (t : list event) :
  m s = (Raise e, s', t) -> bind m k s = (Raise e, s', t).
Proof. intros H. unfold bind. rewrite H. reflexivity. Qed.

(** X4. With a port other than A or B (in either case), or a pin outside 0..7,
    [set_pin_high], [set_pin_low], [toggle_pin], [pulse_pin] and
    [configure_pin_mode] raise [ValueError] with no transfer, no sleep and
    the object unchanged; the port is checked before the pin. *)
Theorem invalid_pin_address_rejected (port : string) (pin : Z) (d : Q)
    (is_output : bool) (self : MCP23S17) :
  valid_port port = false \/ pin_in_range pin = false ->
  let e := ValueError (if valid_port port then "Pin must be 0-7"
                       else "Port must be 'A' or 'B'") in
  set_pin_high port pin self = (Raise e, self, [])
  /\ set_pin_low port pin self = (Raise e, self, [])
  /\ toggle_pin port pin self = (Raise e, self, [])
  /\ pulse_pin port pin d self = (Raise e, self, [])
  /\ configure_pin_mode port pin is_output self = (Raise e, self, []).
Proof.
  intros Hbad e. subst e.
  assert (Hh : set_pin_high port pin self
               = (Raise (ValueError (if valid_port port then "Pin must be 0-7"
                                     else "Port must be 'A' or 'B'")), self, [])).
  { unfold set_pin_high. fold (valid_port port).
    destruct (valid_port port); [ | reflexivity].
    destruct Hbad as [Hbad | Hbad]; [discriminate | rewrite Hbad; reflexivity]. }
  repeat split.
  - exact Hh.
  - unfold set_pin_low. fold (valid_port port).
    destruct (valid_port port); [ | reflexivity].
    destruct Hbad as [Hbad | Hbad]; [discriminate | rewrite Hbad; reflexivity].
  - unfold toggle_pin. fold (valid_port port).
    destruct (valid_port port); [ | reflexivity].
    destruct Hbad as [Hbad | Hbad]; [discriminate | rewrite Hbad; reflexivity].
  - unfold pulse_pin. apply bind_raised. exact Hh.
  - unfold configure_pin_mode. fold (valid_port port).
    destruct (valid_port port); [ | reflexivity].
    destruct Hbad as [Hbad | Hbad]; [discriminate | rewrite Hbad; reflexivity].
Qed.

Lemma invalid_pin_address_rejected_witness :
  set_pin_high "C" 8 chip_ok = (Raise (ValueError "Port must be 'A' or 'B'"), chip_ok, [])
  /\ toggle_pin "a" (-1) chip_ok = (Raise (ValueError "Pin must be 0-7"), chip_ok, []).
Proof.
  split.
  - exact (proj1 (invalid_pin_address_rejected "C" 8 0 true chip_ok (or_introl eq_refl))).
  - exact (proj1 (proj2 (proj2 (invalid_pin_address_rejected "a" (-1) 0 true chip_ok
                                   (or_intror eq_refl))))).
Defined.

(** X5. With a port other than A or B, [set_port], [get_port_state] and
    [read_port_input] raise [ValueError] at once; so does [set_port] with a
    value outside 0..255, and nothing is cached or sent. *)
Theorem invalid_port_or_value_rejected (port : string) (v : Z) (self : MCP23S17) :
  valid_port port = false \/ in_byte v = false ->
  set_port port v self
  = (Raise (ValueError (if valid_port port then "Value must be 0-255"
                        else "Port must be 'A' or 'B'")), self, [])
  /\ (valid_port port = false ->
      get_port_state port self = (Raise (ValueError "Port must be 'A' or 'B'"), self, [])
      /\ read_port_input port self
         = (Raise (ValueError "Port must be 'A' or 'B'"), self, [])).
Proof.
  intros Hbad. split.
  - unfold set_port. fold (valid_port port). fold (in_byte v).
    destruct (valid_port port); [ | reflexivity].
    destruct Hbad as [Hbad | Hbad]; [discriminate | rewrite Hbad; reflexivity].
  - intros Hport. unfold get_port_state, read_port_input. fold (valid_port port).
    rewrite Hport. split; reflexivity.
Qed.

Lemma invalid_port_or_value_rejected_witness :
  set_port "A" 256 chip_ok = (Raise (ValueError "Value must be 0-255"), chip_ok, []).
Proof.
  exact (proj1 (invalid_port_or_value_rejected "A" 256 chip_ok (or_intror eq_refl))).
Defined.

(** ** Pulses *)

Lemma set_then_clear_any (a pin : Z) :
  0 <= pin ->
  Z.land (Z.lor a (Z.shiftl 1 pin)) (Z.lnot (Z.shiftl 1 pin))
  = Z.land a (Z.lnot (Z.shiftl 1 pin)).
Proof.
  intros Hp. apply Z.bits_inj'. intros n Hn.
  rewrite !Z.land_spec, Z.lor_spec, Z.lnot_spec, testbit_one_shifted by lia.
  destruct (Z.eqb_spec pin n) as [-> | _].
  - rewrite !andb_false_r. reflexivity.
  - rewrite orb_false_r. reflexivity.
Qed.

Lemma clear_untouched (a pin : Z) :
  0 <= pin -> Z.testbit a pin = false ->
  Z.land a (Z.lnot (Z.shiftl 1 pin)) = a.
Proof.
  intros Hp Hb. rewrite <- set_then_clear_any by exact Hp.
  apply set_then_clear; assumption.
Qed.

Lemma set_shadow_same (port : string) (self : MCP23S17) :
  set_shadow port (shadow port self) self = self.
Proof.
  unfold set_shadow, shadow. destruct self as [d cs a b].
  destruct (String.eqb (upper port) "A"); reflexivity.
Qed.

Lemma set_shadow_twice (port : string) (v w : Z) (self : MCP23S17) :
  set_shadow port w (set_shadow port v self) = set_shadow port w self.
Proof.
  unfold set_shadow. destruct (String.eqb (upper port) "A"); reflexivity.
Qed.

(** X6. With a valid port and pin, a duration that [time.sleep] sleeps for
    (from 0 to [sleep_limit]) and two transfers
    that go through, [pulse_pin] writes the port byte with the bit set,
    sleeps, and writes it with the bit clear.  Afterwards the pin's cached
    bit is clear and every other cached bit is as before; if the pin was
    low before the pulse, both cached bytes are exactly as before. *)
Theorem pulse_pin_ok (port : string) (pin : Z) (d : Q) (self : MCP23S17) :
  valid_port port = true -> pin_in_range pin = true ->
  sleep_accepts d = true ->
  healthy 2 (spi self) = true ->
  let cs := chip_select self in
  let hi := Z.lor (shadow port self) (Z.shiftl 1 pin) in
  let lo := Z.land (shadow port self) (Z.lnot (Z.shiftl 1 pin)) in
  let r := pulse_pin port pin d self in
  result r = Return tt
  /\ trace r = [Writebytes (write_frame cs (gpio_of port) hi);
                Sleep d;
                Writebytes (write_frame cs (gpio_of port) lo)]
  /\ final r = tick (tick (set_shadow port lo self))
  /\ (Z.testbit (shadow port self) pin = false ->
      port_a_state (final r) = port_a_state self
      /\ port_b_state (final r) = port_b_state self).
Proof.
  intros Hport Hpin Hd H cs hi lo r.
  pose proof (pin_in_range_bounds pin Hpin) as Hb.
  assert (H1 : healthy 1 (spi (tick (pin_high port pin self))) = true)
    by (apply healthy_tick_set; exact H).
  assert (E : r = (Return tt, tick (tick (set_shadow port lo self)),
                   [Writebytes (write_frame cs (gpio_of port) hi);
                    Sleep d;
                    Writebytes (write_frame cs (gpio_of port) lo)])).
  { unfold r, pulse_pin, bind.
    rewrite (set_pin_high_ok 1) by assumption.
    rewrite time_sleep_ok by assumption.
    rewrite (set_pin_low_ok 0) by assumption.
    rewrite pin_low_tick.
    repeat (rewrite chip_select_tick || rewrite chip_select_pin_high
            || rewrite shadow_tick).
    unfold pin_low, pin_high.
    rewrite !shadow_set_shadow, set_shadow_twice, set_then_clear_any by lia.
    reflexivity. }
  rewrite E. unfold result, final, trace. cbn [fst snd].
  repeat split.
  - unfold lo. rewrite clear_untouched by (lia || assumption).
    rewrite set_shadow_same. reflexivity.
  - unfold lo. rewrite clear_untouched by (lia || assumption).
    rewrite set_shadow_same. reflexivity.
Qed.

Lemma pulse_pin_ok_witness :
  result (pulse_pin "A" 0 (1 # 20) chip_ok) = Return tt
  /\ trace (pulse_pin "A" 0 (1 # 20) chip_ok)
     = [Writebytes [0x40; 0x12; 0x01]; Sleep (1 # 20); Writebytes [0x40; 0x12; 0x00]].
Proof.
  pose proof (pulse_pin_ok "A" 0 (1 # 20) chip_ok eq_refl eq_refl eq_refl eq_refl) as W.
  split; [exact (proj1 W) | exact (proj1 (proj2 W))].
Defined.

(** X7. [pulse_row_column] checks the column only after it has driven the row:
    with a valid row port and row but a column port or column that is
    refused, the row write goes out, [ValueError] is raised, and the row
    pin stays high in the cache and on the chip. *)
Theorem pulse_row_column_bad_column (row col : Z) (rp cp : string) (d : Q)
    (self : MCP23S17) :
  valid_port rp = true -> pin_in_range row = true ->
  valid_port cp = false \/ pin_in_range col = false ->
  healthy 1 (spi self) = true ->
  let r := pulse_row_column row col rp cp d self in
  result r = Raise (ValueError (if valid_port cp then "Pin must be 0-7"
                                else "Port must be 'A' or 'B'"))
  /\ trace r = [Writebytes (write_frame (chip_select self) (gpio_of rp)
                              (Z.lor (shadow rp self) (Z.shiftl 1 row)))]
  /\ final r = tick (pin_high rp row self)
  /\ Z.testbit (shadow rp (final r)) row = true.
Proof.
  intros Hrp Hrow Hbad H r.
  pose proof (pin_in_range_bounds row Hrow) as Hb.
  assert (Hc : set_pin_high cp col (tick (pin_high rp row self))
               = (Raise (ValueError (if valid_port cp then "Pin must be 0-7"
                                     else "Port must be 'A' or 'B'")),
                  tick (pin_high rp row self), [])).
  { unfold set_pin_high. fold (valid_port cp).
    destruct (valid_port cp); [ | reflexivity].
    destruct Hbad as [Hbad | Hbad]; [discriminate | rewrite Hbad; reflexivity]. }
  assert (E : r = (Raise (ValueError (if valid_port cp then "Pin must be 0-7"
                                      else "Port must be 'A' or 'B'")),
                   tick (pin_high rp row self),
                   [Writebytes (write_frame (chip_select self) (gpio_of rp)
                                  (Z.lor (shadow rp self) (Z.shiftl 1 row)))])).
  { unfold r, pulse_row_column, bind.
    rewrite (set_pin_high_ok 0) by assumption.
    rewrite Hc. unfold pin_high. rewrite shadow_set_shadow. reflexivity. }
  rewrite E. unfold result, final, trace. cbn [fst snd].
  repeat split.
  rewrite shadow_tick. unfold pin_high. rewrite shadow_set_shadow.
  apply lor_sets_bit. lia.
Qed.

Lemma pulse_row_column_bad_column_witness :
  result (pulse_row_column 0 9 "A" "B" (1 # 10) chip_ok)
  = Raise (ValueError "Pin must be 0-7")
  /\ trace (pulse_row_column 0 9 "A" "B" (1 # 10) chip_ok)
     = [Writebytes [0x40; 0x12; 0x01]]
  /\ port_a_state (final (pulse_row_column 0 9 "A" "B" (1 # 10) chip_ok)) = 1.
Proof.
  pose proof (pulse_row_column_bad_column 0 9 "A" "B" (1 # 10) chip_ok
                eq_refl eq_refl (or_intror eq_refl) eq_refl) as W.
  split; [exact (proj1 W) | split; [exact (proj1 (proj2 W)) | reflexivity]].
Defined.

(** X8. With a negative duration that fits in 64-bit nanoseconds (down to
    -2^63 ns) [pulse_row_column] drives both lines high and then fails in
    [time.sleep] with [ValueError]: two writes, and both pins stay high in
    the cache; nothing lowers them. *)
Theorem pulse_row_column_negative_duration (row col : Z) (rp cp : string) (d : Q)
    (self : MCP23S17) :
  valid_port rp = true -> valid_port cp = true ->
  pin_in_range row = true -> pin_in_range col = true ->
  Qle_bool ns_floor d = true -> Qle_bool 0 d = false ->
  healthy 2 (spi self) = true ->
  let s1 := pin_high rp row self in
  let s2 := pin_high cp col s1 in
  let r := pulse_row_column row col rp cp d self in
  result r = Raise (ValueError "sleep length must be non-negative")
  /\ trace r = [Writebytes (write_frame (chip_select self) (gpio_of rp) (shadow rp s1));
                Writebytes (write_frame (chip_select self) (gpio_of cp) (shadow cp s2))]
  /\ final r = tick (tick s2)
  /\ Z.testbit (shadow rp (final r)) row = true
  /\ Z.testbit (shadow cp (final r)) col = true.
Proof.
  intros Hrp Hcp Hrow Hcol Hfloor Hd H s1 s2 r.
  pose proof (pin_in_range_bounds row Hrow) as Hbr.
  pose proof (pin_in_range_bounds col Hcol) as Hbc.
  assert (H1 : healthy 1 (spi (tick s1)) = true)
    by (apply healthy_tick_set; exact H).
  assert (E : r = (Raise (ValueError "sleep length must be non-negative"),
                   tick (tick s2),
                   [Writebytes (write_frame (chip_select self) (gpio_of rp) (shadow rp s1));
                    Writebytes (write_frame (chip_select self) (gpio_of cp) (shadow cp s2))])).
  { unfold r, pulse_row_column, bind.
    rewrite (set_pin_high_ok 1) by assumption.
    rewrite (set_pin_high_ok 0) by assumption.
    rewrite time_sleep_negative by assumption.
    rewrite pin_high_tick.
    repeat (rewrite chip_select_tick || rewrite chip_select_pin_high
            || rewrite shadow_tick).
    reflexivity. }
  rewrite E. unfold result, final, trace. cbn [fst snd].
  rewrite !shadow_tick.
  repeat split.
  - unfold s2, s1, pin_high, shadow, set_shadow.
    destruct (String.eqb (upper rp) "A"); destruct (String.eqb (upper cp) "A");
      cbn [port_a_state port_b_state with_port_a_state with_port_b_state];
      try (apply lor_sets_bit; lia);
      rewrite Z.lor_spec, lor_sets_bit by lia; reflexivity.
  - unfold s2, pin_high. rewrite shadow_set_shadow. apply lor_sets_bit. lia.
Qed.

Lemma pulse_row_column_negative_duration_witness :
  result (pulse_row_column 1 2 "A" "B" (-1 # 10) chip_ok)
  = Raise (ValueError "sleep length must be non-negative")
  /\ trace (pulse_row_column 1 2 "A" "B" (-1 # 10) chip_ok)
     = [Writebytes [0x40; 0x12; 0x02]; Writebytes [0x40; 0x13; 0x04]].
Proof.
  pose proof (pulse_row_column_negative_duration 1 2 "A" "B" (-1 # 10) chip_ok
                eq_refl eq_refl eq_refl eq_refl eq_refl eq_refl eq_refl) as W.
  split; [exact (proj1 W) | exact (proj1 (proj2 W))].
Defined.

(** ** Register reads and pin direction *)

Lemma read_register_run (r : MCP23S17Register) (self : MCP23S17) :
  _read_register r self =
  match spi_xfer2 [Z.lor (Z.lor 0x40 (Z.shiftl (chip_select self) 1)) 1; value r; 0x00]
          (spi self) with
  | (Return rx, d, t) =>
      match nth_error rx 2 with
      | Some data => (Return data, with_spi d self, t)
      | None => (Raise IndexError, with_spi d self, t)
      end
  | (Raise e, d, t) => (Raise e, with_spi d self, t)
  end.
Proof.
  unfold _read_register, bind, get, try_except, on_spi, zoom, raise, ret,
    _build_command, spi_xfer2.
  destruct self as [d cs a b]. cbn [spi chip_select fst snd].
  destruct (fd_open d); [ destruct (line d (xfers d)) as [rx | ] | ];
    try reflexivity.
  destruct (nth_error rx 2); cbn [app]; rewrite ?app_nil_r; reflexivity.
Qed.

(** X9. [read_port_input] goes to the wire, not to the cache: on an open handle
    it makes one transfer to the port's GPIO register and returns the third
    byte of the answer; an answer of fewer than three bytes raises
    [IndexError] and a failed transfer raises the transport's error.  The
    cached bytes are never changed. *)
Theorem read_port_input_cases (port : string) (self : MCP23S17) :
  valid_port port = true ->
  fd_open (spi self) = true ->
  let tx := [Z.lor (Z.lor 0x40 (Z.shiftl (chip_select self) 1)) 1;
             value (gpio_of port); 0x00] in
  let r := read_port_input port self in
  match line (spi self) (xfers (spi self)) with
  | Some rx =>
      trace r = [Xfer2 tx rx]
      /\ result r = match nth_error rx 2 with
                    | Some data => Return data
                    | None => Raise IndexError
                    end
  | None => trace r = [Fault tx] /\ result r = Raise OSError
  end
  /\ final r = tick self.
Proof.
  intros Hport Hfd tx r. subst r tx.
  unfold read_port_input, gpio_of. fold (valid_port port). rewrite Hport. cbn [negb].
  destruct (String.eqb (upper port) "A");
    rewrite read_register_run; unfold spi_xfer2; rewrite Hfd;
    (destruct (line (spi self) (xfers (spi self))) as [rx | ];
     [destruct (nth_error rx 2) | ]); repeat split.
Qed.

Lemma read_port_input_cases_witness :
  result (read_port_input "b" (mkMCP23S17 (mkSpiDev true (fun _ => Some [0; 0]) 0 true) 0 7 9))
  = Raise IndexError.
Proof.
  pose proof (read_port_input_cases "b"
                (mkMCP23S17 (mkSpiDev true (fun _ => Some [0; 0]) 0 true) 0 7 9)
                eq_refl eq_refl) as W.
  exact (proj2 (proj1 W)).
Defined.

(** X10. [configure_pin_mode] is a read-modify-write of the port's direction
    register: with a valid port and pin and two transfers that go through,
    it reads IODIRA or IODIRB and writes back the byte read with the pin's
    bit cleared for an output and set for an input, every other bit as
    read.  The cached port bytes are not involved. *)
Theorem configure_pin_mode_ok (port : string) (pin : Z) (is_output : bool)
    (self : MCP23S17) (r0 r1 r2 : Z) :
  valid_port port = true -> pin_in_range pin = true ->
  healthy 2 (spi self) = true ->
  line (spi self) (xfers (spi self)) = Some [r0; r1; r2] ->
  let cs := chip_select self in
  let reg := if String.eqb (upper port) "A" then IODIRA else IODIRB in
  let new := if is_output then Z.land r2 (Z.lnot (Z.shiftl 1 pin))
             else Z.lor r2 (Z.shiftl 1 pin) in
  let r := configure_pin_mode port pin is_output self in
  result r = Return tt
  /\ trace r = [Xfer2 [Z.lor (Z.lor 0x40 (Z.shiftl cs 1)) 1; value reg; 0x00] [r0; r1; r2];
                Writebytes (write_frame cs reg new)]
  /\ final r = tick (tick self)
  /\ Z.testbit new pin = negb is_output
  /\ (forall n, 0 <= n -> n <> pin -> Z.testbit new n = Z.testbit r2 n).
Proof.
  intros Hport Hpin H Hline cs reg new r.
  pose proof (pin_in_range_bounds pin Hpin) as Hb.
  pose proof (healthy_fd_open 1 _ H) as Hfd.
  pose proof (healthy_step 1 _ H) as H1.
  assert (E : r = (Return tt, tick (tick self),
                   [Xfer2 [Z.lor (Z.lor 0x40 (Z.shiftl cs 1)) 1; value reg; 0x00]
                      [r0; r1; r2];
                    Writebytes (write_frame cs reg new)])).
  { unfold r, configure_pin_mode. fold (valid_port port). rewrite Hport, Hpin.
    cbn [negb]. unfold bind. rewrite read_register_run. unfold spi_xfer2.
    rewrite Hfd, Hline. cbn [nth_error].
    rewrite (write_register_ok 0) by exact H1. reflexivity. }
  rewrite E. unfold result, final, trace. cbn [fst snd].
  repeat split.
  - unfold new. destruct is_output; [apply land_clears_bit | apply lor_sets_bit]; lia.
  - intros n Hn Hne. unfold new. destruct is_output.
    + rewrite Z.land_spec, Z.lnot_spec, testbit_one_shifted by lia.
      replace (pin =? n) with false by lia. apply andb_true_r.
    + rewrite Z.lor_spec, testbit_one_shifted by lia.
      replace (pin =? n) with false by lia. apply orb_false_r.
Qed.

Lemma configure_pin_mode_ok_witness :
  trace (configure_pin_mode "A" 7 false chip_ok)
  = [Xfer2 [0x41; 0x00; 0x00] [0; 0; 0]; Writebytes [0x40; 0x00; 0x80]].
Proof.
  exact (proj1 (proj2 (configure_pin_mode_ok "A" 7 false chip_ok 0 0 0
                         eq_refl eq_refl eq_refl eq_refl))).
Defined.

(** ** A press gives the lines back *)

Lemma press_bits (a row col : Z) :
  0 <= row -> 0 <= col ->
  Z.testbit a row = false -> Z.testbit a col = false ->
  Z.land (Z.land (Z.lor (Z.lor a (Z.shiftl 1 row)) (Z.shiftl 1 col))
            (Z.lnot (Z.shiftl 1 row))) (Z.lnot (Z.shiftl 1 col)) = a.
Proof.
  intros Hr Hc Har Hac. apply Z.bits_inj'. intros n Hn.
  rewrite !Z.land_spec, !Z.lor_spec, !Z.lnot_spec, !testbit_one_shifted by lia.
  destruct (Z.eqb_spec row n) as [-> | _]; destruct (Z.eqb_spec col n) as [E | _];
    try subst n; rewrite ?Har, ?Hac; cbn [negb orb andb];
    rewrite ?andb_false_r, ?orb_false_r, ?andb_true_r; reflexivity.
Qed.

(** X11. With valid ports and pins, a duration that [time.sleep] sleeps for
    (from 0 to [sleep_limit]) and four transfers that go through, the
    press of a position whose row and column pins were low returns
    normally and leaves both cached port bytes exactly as they were, also
    when rows and columns share a port. *)
Theorem pulse_row_column_restores (row col : Z) (rp cp : string) (d : Q)
    (self : MCP23S17) :
  valid_port rp = true -> valid_port cp = true ->
  pin_in_range row = true -> pin_in_range col = true ->
  sleep_accepts d = true ->
  healthy 4 (spi self) = true ->
  Z.testbit (shadow rp self) row = false ->
  Z.testbit (shadow cp self) col = false ->
  let r := pulse_row_column row col rp cp d self in
  result r = Return tt
  /\ port_a_state (final r) = port_a_state self
  /\ port_b_state (final r) = port_b_state self.
Proof.
  intros Hrp Hcp Hrow Hcol Hd H Hbr Hbc r. subst r.
  pose proof (pin_in_range_bounds row Hrow) as Hr.
  pose proof (pin_in_range_bounds col Hcol) as Hc.
  rewrite (pulse_row_column_ok 0) by assumption.
  unfold result, final. cbn [fst snd].
  split; [reflexivity | ].
  revert Hbr Hbc.
  unfold pin_low, pin_high, shadow, set_shadow, tick.
  destruct (String.eqb (upper rp) "A"); destruct (String.eqb (upper cp) "A");
    cbn [port_a_state port_b_state with_port_a_state with_port_b_state with_spi];
    intros Hbr Hbc; split;
    first [ reflexivity
          | apply press_bits; (lia || assumption)
          | apply set_then_clear; (lia || assumption) ].
Qed.

Lemma pulse_row_column_restores_witness :
  port_a_state (final (pulse_row_column 1 3 "A" "A" (1 # 10)
                         (mkMCP23S17 dev_ok 0 0x05 0x00))) = 0x05.
Proof.
  exact (proj1 (proj2 (pulse_row_column_restores 1 3 "A" "A" (1 # 10)
                         (mkMCP23S17 dev_ok 0 0x05 0x00)
                         eq_refl eq_refl eq_refl eq_refl eq_refl eq_refl
                         eq_refl eq_refl))).
Defined.

(** ** The cached bytes stay bytes *)

Lemma in_byte_land (v : Z) : in_byte v = true <-> Z.land v 0xFF = v.
Proof.
  assert (E : Z.land v 0xFF = v mod 256).
  { change 0xFF with (Z.ones 8). rewrite Z.land_ones by lia. reflexivity. }
  rewrite E. unfold in_byte. split.
  - intros H. apply Z.mod_small. lia.
  - intros H. pose proof (Z.mod_pos_bound v 256 ltac:(lia)). lia.
Qed.

Lemma in_byte_bit (pin : Z) : pin_in_range pin = true -> in_byte (Z.shiftl 1 pin) = true.
Proof.
  intros H. apply pin_in_range_bounds in H.
  assert (C : pin = 0 \/ pin = 1 \/ pin = 2 \/ pin = 3 \/ pin = 4 \/ pin = 5
              \/ pin = 6 \/ pin = 7) by lia.
  repeat (destruct C as [-> | C]; [reflexivity | ]). subst pin. reflexivity.
Qed.

Lemma in_byte_lor (a b : Z) :
  in_byte a = true -> in_byte b = true -> in_byte (Z.lor a b) = true.
Proof.
  rewrite !in_byte_land. intros Ha Hb.
  rewrite Z.land_lor_distr_l, Ha, Hb. reflexivity.
Qed.

Lemma in_byte_land_l (a b : Z) : in_byte a = true -> in_byte (Z.land a b) = true.
Proof.
  rewrite !in_byte_land. intros Ha.
  rewrite <- Z.land_assoc, (Z.land_comm b), Z.land_assoc, Ha. reflexivity.
Qed.

Lemma bytes_ok_with_spi (d : SpiDev) (self : MCP23S17) :
  bytes_ok self -> bytes_ok (with_spi d self).
Proof. intros H. exact H. Qed.

Lemma bytes_ok_set_shadow (port : string) (v : Z) (self : MCP23S17) :
  in_byte v = true -> bytes_ok self -> bytes_ok (set_shadow port v self).
Proof.
  intros Hv [Ha Hb]. unfold set_shadow, bytes_ok.
  destruct (String.eqb (upper port) "A"); split; assumption.
Qed.

Lemma in_byte_shadow (port : string) (self : MCP23S17) :
  bytes_ok self -> in_byte (shadow port self) = true.
Proof.
  intros [Ha Hb]. unfold shadow. destruct (String.eqb (upper port) "A"); assumption.
Qed.

Lemma keeps_bytes_bind {A B} (m : Py MCP23S17 A) (k : A -> Py MCP23S17 B) :
  keeps_bytes m -> (forall a, keeps_bytes (k a)) -> keeps_bytes (bind m k).
Proof.
  intros Hm Hk self Hs. unfold bind.
  specialize (Hm self Hs). destruct (m self) as [[[a | e] s1] t1]; [ | exact Hm].
  specialize (Hk a s1 Hm). destruct (k a s1) as [[r s2] t2]. exact Hk.
Qed.

Lemma keeps_bytes_write_register (r : MCP23S17Register) (data : Z) :
  keeps_bytes (_write_register r data).
Proof.
  intros self Hs. rewrite write_register_run.
  destruct (spi_writebytes _ (spi self)) as [[res d] t]. exact Hs.
Qed.

Lemma keeps_bytes_read_register (r : MCP23S17Register) :
  keeps_bytes (_read_register r).
Proof.
  intros self Hs. rewrite read_register_run.
  destruct (spi_xfer2 _ (spi self)) as [[[rx | e] d] t]; [ | exact Hs].
  destruct (nth_error rx 2); exact Hs.
Qed.

Lemma keeps_bytes_time_sleep (d : Q) : keeps_bytes (time_sleep d).
Proof.
  intros self Hs.
  destruct (time_sleep_cases d) as [E | [e E]]; rewrite E; exact Hs.
Qed.

Lemma keeps_bytes_set_pin_high (port : string) (pin : Z) :
  keeps_bytes (set_pin_high port pin).
Proof.
  intros self Hs.
  destruct (valid_port port) eqn:Hport;
    [ destruct (pin_in_range pin) eqn:Hpin | ].
  - rewrite set_pin_high_run by assumption.
    apply keeps_bytes_write_register. unfold pin_high.
    apply bytes_ok_set_shadow; [ | exact Hs].
    apply in_byte_lor; [apply in_byte_shadow; exact Hs | apply in_byte_bit; exact Hpin].
  - unfold set_pin_high. fold (valid_port port). rewrite Hport, Hpin. exact Hs.
  - unfold set_pin_high. fold (valid_port port). rewrite Hport. exact Hs.
Qed.

Lemma keeps_bytes_set_pin_low (port : string) (pin : Z) :
  keeps_bytes (set_pin_low port pin).
Proof.
  intros self Hs.
  destruct (valid_port port) eqn:Hport;
    [ destruct (pin_in_range pin) eqn:Hpin | ].
  - rewrite set_pin_low_run by assumption.
    apply keeps_bytes_write_register. unfold pin_low.
    apply bytes_ok_set_shadow; [ | exact Hs].
    apply in_byte_land_l. apply in_byte_shadow. exact Hs.
  - unfold set_pin_low. fold (valid_port port). rewrite Hport, Hpin. exact Hs.
  - unfold set_pin_low. fold (valid_port port). rewrite Hport. exact Hs.
Qed.

Lemma keeps_bytes_pulse_row_column (row col : Z) (rp cp : string) (d : Q) :
  keeps_bytes (pulse_row_column row col rp cp d).
Proof.
  unfold pulse_row_column.
  repeat (apply keeps_bytes_bind; [ | intros _]);
    first [ apply keeps_bytes_set_pin_high | apply keeps_bytes_set_pin_low
          | apply keeps_bytes_time_sleep ].
Qed.

Lemma keeps_bytes_matrix_sequence_from (rp cp : string) (d itv : Q) (n : Z)
    (rest : list (Z * Z)) :
  forall i, keeps_bytes (matrix_sequence_from n i rest rp cp d itv).
Proof.
  induction rest as [ | [row col] rest IH]; intros i.
  - intros self Hs. exact Hs.
  - cbn [matrix_sequence_from].
    apply keeps_bytes_bind; [apply keeps_bytes_pulse_row_column | intros _].
    apply keeps_bytes_bind; [ | intros _; apply IH].
    destruct (i <? n - 1); [apply keeps_bytes_time_sleep | intros self Hs; exact Hs].
Qed.

Lemma keeps_bytes_try_except {A} (body : Py MCP23S17 A) (handler : exn -> Py MCP23S17 A) :
  keeps_bytes body -> (forall e, keeps_bytes (handler e)) ->
  keeps_bytes (try_except body handler).
Proof.
  intros Hb Hh self Hs. unfold try_except.
  specialize (Hb self Hs). destruct (body self) as [[[a | e] s1] t1]; [exact Hb | ].
  specialize (Hh e s1 Hb). destruct (handler e s1) as [[r s2] t2]. exact Hh.
Qed.

Lemma keeps_bytes_raise {A} (e : exn) : keeps_bytes (@raise MCP23S17 A e).
Proof. intros self Hs. exact Hs. Qed.

Lemma keeps_bytes_toggle_pin (port : string) (pin : Z) : keeps_bytes (toggle_pin port pin).
Proof.
  intros self Hs.
  destruct (valid_port port) eqn:Hport;
    [ destruct (pin_in_range pin) eqn:Hpin | ].
  - rewrite toggle_pin_run by assumption.
    assert (Hk : bytes_ok (final (set_pin port pin
                                    (negb (Z.testbit (shadow port self) pin)) self))).
    { unfold set_pin. destruct (negb _);
        [apply keeps_bytes_set_pin_high | apply keeps_bytes_set_pin_low]; exact Hs. }
    destruct (set_pin port pin _ self) as [[[[] | e] s'] t]; exact Hk.
  - unfold toggle_pin. fold (valid_port port). rewrite Hport, Hpin. exact Hs.
  - unfold toggle_pin. fold (valid_port port). rewrite Hport. exact Hs.
Qed.

Lemma keeps_bytes_set_port (port : string) (v : Z) : keeps_bytes (set_port port v).
Proof.
  intros self Hs.
  destruct (valid_port port) eqn:Hport; [ destruct (in_byte v) eqn:Hv | ].
  - rewrite set_port_run by assumption.
    apply keeps_bytes_write_register. apply bytes_ok_set_shadow; assumption.
  - unfold set_port. fold (valid_port port). fold (in_byte v).
    rewrite Hport, Hv. exact Hs.
  - unfold set_port. fold (valid_port port). rewrite Hport. exact Hs.
Qed.

Lemma keeps_bytes_pulse_pin (port : string) (pin : Z) (d : Q) :
  keeps_bytes (pulse_pin port pin d).
Proof.
  unfold pulse_pin.
  repeat (apply keeps_bytes_bind; [ | intros _]);
    first [ apply keeps_bytes_set_pin_high | apply keeps_bytes_set_pin_low
          | apply keeps_bytes_time_sleep ].
Qed.

Lemma keeps_bytes_configure_pin_mode (port : string) (pin : Z) (is_output : bool) :
  keeps_bytes (configure_pin_mode port pin is_output).
Proof.
  unfold configure_pin_mode.
  destruct (negb (str_in (upper port) ["A"; "B"])); [apply keeps_bytes_raise | ].
  destruct (negb (pin_in_range pin)); [apply keeps_bytes_raise | ].
  apply keeps_bytes_bind; [apply keeps_bytes_read_register | intros current].
  apply keeps_bytes_write_register.
Qed.

Lemma keeps_bytes_read_port_input (port : string) : keeps_bytes (read_port_input port).
Proof.
  unfold read_port_input.
  destruct (negb (str_in (upper port) ["A"; "B"])); [apply keeps_bytes_raise | ].
  destruct (String.eqb (upper port) "A"); apply keeps_bytes_read_register.
Qed.

Lemma keeps_bytes_cleanup : keeps_bytes cleanup.
Proof.
  intros self [Ha Hb]. destruct (cleanup_keeps_cache self) as [Ea Eb].
  unfold bytes_ok. rewrite Ea, Eb. split; assumption.
Qed.

Lemma keeps_bytes_initialize_chip : keeps_bytes _initialize_chip.
Proof.
  unfold _initialize_chip.
  apply keeps_bytes_try_except; [ | intros e; apply keeps_bytes_raise].
  repeat (apply keeps_bytes_bind; [apply keeps_bytes_write_register | intros _]).
  apply keeps_bytes_bind; [ | intros _]; intros self [Ha Hb]; split;
    (reflexivity || assumption).
Qed.

(** X12. From cached bytes within 0..255, every operation of the expander ends
    with cached bytes within 0..255, whatever its arguments and whether it
    returns or raises. *)
Theorem cached_bytes_stay_bytes (self : MCP23S17) (port cp : string) (pin col v : Z)
    (d itv : Q) (is_output : bool) (sequence : list (Z * Z)) :
  bytes_ok self ->
  bytes_ok (final (set_pin_high port pin self))
  /\ bytes_ok (final (set_pin_low port pin self))
  /\ bytes_ok (final (toggle_pin port pin self))
  /\ bytes_ok (final (set_port port v self))
  /\ bytes_ok (final (pulse_pin port pin d self))
  /\ bytes_ok (final (pulse_row_column pin col port cp d self))
  /\ bytes_ok (final (matrix_sequence sequence port cp d itv self))
  /\ bytes_ok (final (configure_pin_mode port pin is_output self))
  /\ bytes_ok (final (read_port_input port self))
  /\ bytes_ok (final (cleanup self))
  /\ bytes_ok (final (_initialize_chip self)).
Proof.
  intros Hs.
  refine (conj _ (conj _ (conj _ (conj _ (conj _ (conj _ (conj _ (conj _
            (conj _ (conj _ _)))))))))).
  - apply keeps_bytes_set_pin_high; exact Hs.
  - apply keeps_bytes_set_pin_low; exact Hs.
  - apply keeps_bytes_toggle_pin; exact Hs.
  - apply keeps_bytes_set_port; exact Hs.
  - apply keeps_bytes_pulse_pin; exact Hs.
  - apply keeps_bytes_pulse_row_column; exact Hs.
  - apply keeps_bytes_matrix_sequence_from; exact Hs.
  - apply keeps_bytes_configure_pin_mode; exact Hs.
  - apply keeps_bytes_read_port_input; exact Hs.
  - apply keeps_bytes_cleanup; exact Hs.
  - apply keeps_bytes_initialize_chip; exact Hs.
Qed.

Lemma cached_bytes_stay_bytes_witness :
  bytes_ok (final (toggle_pin "B" 7 (mkMCP23S17 dev_dead 0 0xFF 0x7F))).
Proof.
  exact (proj1 (proj2 (proj2
    (cached_bytes_stay_bytes (mkMCP23S17 dev_dead 0 0xFF 0x7F) "B" "A" 7 0 0 0 0
       true [] (conj eq_refl eq_refl))))).
Defined.

(** ** The cache follows the chip through every successful operation *)

Lemma latched_app (r : MCP23S17Register) (v : Z) (t1 t2 : list event) :
  latched r v (t1 ++ t2) = latched r (latched r v t1) t2.
Proof. unfold latched. apply fold_left_app. Qed.

Lemma steady_bind {A B} (m : Py MCP23S17 A) (k : A -> Py MCP23S17 B) :
  steady m -> (forall a, steady (k a)) -> steady (bind m k).
Proof.
  intros Hm Hk self ga gb x Hin. unfold bind.
  specialize (Hm self ga gb). destruct (m self) as [[[a | e] s1] t1].
  - specialize (Hm a Hin eq_refl). unfold final, trace in Hm. cbn [fst snd] in Hm.
    specialize (Hk a s1 (latched GPIOA ga t1) (latched GPIOB gb t1)).
    destruct (k a s1) as [[r s2] t2].
    unfold result, final, trace in *. cbn [fst snd] in *.
    intros Hr. rewrite !latched_app. apply (Hk x Hm Hr).
  - unfold result. cbn [fst]. discriminate.
Qed.

Lemma steady_ext {A} (m m' : Py MCP23S17 A) :
  (forall self, m self = m' self) -> steady m' -> steady m.
Proof. intros E H self ga gb x. rewrite E. apply H. Qed.

Lemma steady_raise {A} (e : exn) : steady (@raise MCP23S17 A e).
Proof. intros self ga gb x _ H. discriminate H. Qed.

Lemma steady_ret {A} (a : A) : steady (@ret MCP23S17 A a).
Proof. intros self ga gb x H _. exact H. Qed.

Lemma steady_time_sleep (d : Q) : steady (time_sleep d).
Proof.
  intros self ga gb x H.
  destruct (time_sleep_cases d) as [E | [e E]]; rewrite E; [ | discriminate].
  intros _. exact H.
Qed.

(** Storing [v] for a port and writing it to the port's GPIO register. *)
Lemma steady_write_through (port : string) (v : MCP23S17 -> Z) :
  steady (fun self =>
            _write_register (gpio_of port) (v self) (set_shadow port (v self) self)).
Proof.
  intros self ga gb x [Ha Hb]. rewrite write_register_run.
  rewrite chip_select_set_shadow, spi_set_shadow. unfold spi_writebytes.
  destruct (fd_open (spi self)); [destruct (line (spi self) (xfers (spi self))) | ];
    unfold result, final, trace; cbn [fst snd]; try discriminate.
  intros _. unfold in_step, latched. cbn [fold_left].
  rewrite !latch_write_frame. unfold gpio_of, set_shadow.
  destruct (String.eqb (upper port) "A"); split; (reflexivity || assumption).
Qed.

Lemma steady_set_pin_high (port : string) (pin : Z) : steady (set_pin_high port pin).
Proof.
  destruct (valid_port port) eqn:Hport;
    [ destruct (pin_in_range pin) eqn:Hpin | ].
  - apply (steady_ext _ (fun self =>
             _write_register (gpio_of port)
               (Z.lor (shadow port self) (Z.shiftl 1 pin))
               (set_shadow port (Z.lor (shadow port self) (Z.shiftl 1 pin)) self))).
    + intros self. rewrite set_pin_high_run by assumption.
      unfold pin_high. rewrite shadow_set_shadow. reflexivity.
    + apply (steady_write_through port
               (fun self => Z.lor (shadow port self) (Z.shiftl 1 pin))).
  - unfold set_pin_high. fold (valid_port port). rewrite Hport, Hpin. apply steady_raise.
  - unfold set_pin_high. fold (valid_port port). rewrite Hport. apply steady_raise.
Qed.

Lemma steady_set_pin_low (port : string) (pin : Z) : steady (set_pin_low port pin).
Proof.
  destruct (valid_port port) eqn:Hport;
    [ destruct (pin_in_range pin) eqn:Hpin | ].
  - apply (steady_ext _ (fun self =>
             _write_register (gpio_of port)
               (Z.land (shadow port self) (Z.lnot (Z.shiftl 1 pin)))
               (set_shadow port (Z.land (shadow port self) (Z.lnot (Z.shiftl 1 pin)))
                  self))).
    + intros self. rewrite set_pin_low_run by assumption.
      unfold pin_low. rewrite shadow_set_shadow. reflexivity.
    + apply (steady_write_through port
               (fun self => Z.land (shadow port self) (Z.lnot (Z.shiftl 1 pin)))).
  - unfold set_pin_low. fold (valid_port port). rewrite Hport, Hpin. apply steady_raise.
  - unfold set_pin_low. fold (valid_port port). rewrite Hport. apply steady_raise.
Qed.

Lemma steady_toggle_pin (port : string) (pin : Z) : steady (toggle_pin port pin).
Proof.
  destruct (valid_port port) eqn:Hport;
    [ destruct (pin_in_range pin) eqn:Hpin | ].
  - intros self ga gb x Hin. rewrite toggle_pin_run by assumption.
    assert (Hk : steady (set_pin port pin (negb (Z.testbit (shadow port self) pin)))).
    { unfold set_pin. destruct (negb _);
        [apply steady_set_pin_high | apply steady_set_pin_low]. }
    specialize (Hk self ga gb).
    destruct (set_pin port pin _ self) as [[[[] | e] s'] t];
      unfold result, final, trace in *; cbn [fst snd] in *; [ | discriminate].
    intros _. rewrite app_nil_r. apply (Hk tt Hin eq_refl).
  - unfold toggle_pin. fold (valid_port port). rewrite Hport, Hpin. apply steady_raise.
  - unfold toggle_pin. fold (valid_port port). rewrite Hport. apply steady_raise.
Qed.

Lemma steady_set_port (port : string) (v : Z) : steady (set_port port v).
Proof.
  destruct (valid_port port) eqn:Hport; [ destruct (in_byte v) eqn:Hv | ].
  - apply (steady_ext _ (fun self =>
             _write_register (gpio_of port) v (set_shadow port v self))).
    + intros self. apply set_port_run; assumption.
    + apply (steady_write_through port (fun _ => v)).
  - unfold set_port. fold (valid_port port). fold (in_byte v).
    rewrite Hport, Hv. apply steady_raise.
  - unfold set_port. fold (valid_port port). rewrite Hport. apply steady_raise.
Qed.

Lemma steady_pulse_row_column (row col : Z) (rp cp : string) (d : Q) :
  steady (pulse_row_column row col rp cp d).
Proof.
  unfold pulse_row_column.
  repeat (apply steady_bind; [ | intros _]);
    first [ apply steady_set_pin_high | apply steady_set_pin_low
          | apply steady_time_sleep ].
Qed.

Lemma steady_matrix_sequence_from (rp cp : string) (d itv : Q) (n : Z)
    (rest : list (Z * Z)) :
  forall i, steady (matrix_sequence_from n i rest rp cp d itv).
Proof.
  induction rest as [ | [row col] rest IH]; intros i.
  - apply steady_ret.
  - cbn [matrix_sequence_from].
    apply steady_bind; [apply steady_pulse_row_column | intros _].
    apply steady_bind; [ | intros _; apply IH].
    destruct (i <? n - 1); [apply steady_time_sleep | apply steady_ret].
Qed.

Lemma steady_write_other (r : MCP23S17Register) (data : Z) :
  r <> GPIOA -> r <> GPIOB -> steady (_write_register r data).
Proof.
  intros HA HB self ga gb x Hin. rewrite write_register_run.
  unfold spi_writebytes.
  destruct (fd_open (spi self)); [destruct (line (spi self) (xfers (spi self))) | ];
    unfold result, final, trace; cbn [fst snd]; try discriminate.
  intros _. unfold in_step, latched. cbn [fold_left].
  rewrite !latch_write_frame.
  destruct r; try contradiction; exact Hin.
Qed.

Lemma steady_read_register (r : MCP23S17Register) : steady (_read_register r).
Proof.
  intros self ga gb x Hin. rewrite read_register_run. unfold spi_xfer2.
  destruct (fd_open (spi self));
    [destruct (line (spi self) (xfers (spi self))) as [rx | ];
     [destruct (nth_error rx 2) | ] | ];
    unfold result, final, trace; cbn [fst snd]; try discriminate.
  intros _. exact Hin.
Qed.

Lemma steady_configure_pin_mode (port : string) (pin : Z) (is_output : bool) :
  steady (configure_pin_mode port pin is_output).
Proof.
  unfold configure_pin_mode.
  destruct (negb (str_in (upper port) ["A"; "B"])); [apply steady_raise | ].
  destruct (negb (pin_in_range pin)); [apply steady_raise | ].
  apply steady_bind; [apply steady_read_register | intros current].
  destruct (String.eqb (upper port) "A"); apply steady_write_other; discriminate.
Qed.

(** X13. Whenever an operation of the expander returns normally from a state
    whose cached bytes equal the contents of the GPIO registers, the cached
    bytes equal the contents of the GPIO registers afterwards: the cache
    can fall out of step with the chip only through an operation that
    raises, or through [cleanup]. *)
Theorem cache_follows_chip (self : MCP23S17) (ga gb : Z) (port cp : string)
    (pin col v : Z) (d itv : Q) (is_output : bool) (sequence : list (Z * Z)) :
  in_step self ga gb ->
  in_step_after ga gb (set_pin_high port pin self)
  /\ in_step_after ga gb (set_pin_low port pin self)
  /\ in_step_after ga gb (toggle_pin port pin self)
  /\ in_step_after ga gb (set_port port v self)
  /\ in_step_after ga gb (pulse_pin port pin d self)
  /\ in_step_after ga gb (pulse_row_column pin col port cp d self)
  /\ in_step_after ga gb (matrix_sequence sequence port cp d itv self)
  /\ in_step_after ga gb (configure_pin_mode port pin is_output self).
Proof.
  intros Hin.
  assert (use : forall A (m : Py MCP23S17 A), steady m -> in_step_after ga gb (m self)).
  { intros A m Hm [x Hx]. exact (Hm self ga gb x Hin Hx). }
  refine (conj _ (conj _ (conj _ (conj _ (conj _ (conj _ (conj _ _))))))); apply use.
  - apply steady_set_pin_high.
  - apply steady_set_pin_low.
  - apply steady_toggle_pin.
  - apply steady_set_port.
  - unfold pulse_pin.
    repeat (apply steady_bind; [ | intros _]);
      first [ apply steady_set_pin_high | apply steady_set_pin_low
            | apply steady_time_sleep ].
  - apply steady_pulse_row_column.
  - apply steady_matrix_sequence_from.
  - apply steady_configure_pin_mode.
Qed.

Lemma cache_follows_chip_witness :
  in_step (final (pulse_row_column 1 3 "A" "B" (1 # 10) chip_ok))
    (latched GPIOA 0 (trace (pulse_row_column 1 3 "A" "B" (1 # 10) chip_ok)))
    (latched GPIOB 0 (trace (pulse_row_column 1 3 "A" "B" (1 # 10) chip_ok))).
Proof.
  pose proof (cache_follows_chip chip_ok 0 0 "A" "B" 1 3 0 (1 # 10) 0 true []
                (conj eq_refl eq_refl)) as W.
  apply (proj1 (proj2 (proj2 (proj2 (proj2 (proj2 W)))))).
  exists tt. reflexivity.
Defined.

(** ** Sequences: where they stop and what they send *)

Lemma matrix_sequence_from_stops (rp cp : string) (d itv : Q) (post : list (Z * Z))
    (e : exn) (l : list (Z * Z)) :
  forall (n n' i : Z) (self : MCP23S17),
    n = i + Z.of_nat (List.length l) -> n <= n' ->
    result (matrix_sequence_from n i l rp cp d itv self) = Raise e ->
    matrix_sequence_from n' i (l ++ post) rp cp d itv self
    = matrix_sequence_from n i l rp cp d itv self.
Proof.
  induction l as [ | [row col] l IH]; intros n n' i self Hn Hle Hres.
  - discriminate Hres.
  - cbn [app matrix_sequence_from] in *. unfold bind in *.
    destruct (pulse_row_column row col rp cp d self) as [[[[] | e1] s1] t1];
      [ | reflexivity].
    destruct l as [ | p l'].
    + replace (i <? n - 1) with false in Hres by (cbn [List.length] in Hn; lia).
      discriminate Hres.
    + replace (i <? n - 1) with true in * by (cbn [List.length] in Hn; lia).
      replace (i <? n' - 1) with true by (cbn [List.length] in Hn; lia).
      destruct (time_sleep itv s1) as [[[[] | e2] s2] t2]; [ | reflexivity].
      rewrite (IH n n' (i + 1) s2).
      * reflexivity.
      * cbn [List.length] in Hn |- *. lia.
      * exact Hle.
      * destruct (matrix_sequence_from n (i + 1) (p :: l') rp cp d itv s2)
          as [[[[] | e3] s3] t3]; [discriminate Hres | ].
        unfold result in *. cbn [fst] in *. exact Hres.
Qed.

(** X14. A sequence that raises stops there: if [press_sequence] on a list
    raises, then on that list followed by any further positions it does
    exactly the same and nothing more. *)
Theorem press_sequence_stops_at_failure (self : MatrixController)
    (buttons post : list (Z * Z)) (duration interval : Q) (e : exn) :
  result (press_sequence buttons duration interval self) = Raise e ->
  press_sequence (buttons ++ post) duration interval self
  = press_sequence buttons duration interval self.
Proof.
  unfold press_sequence, bind, get, on_mcp, zoom, matrix_sequence. cbn [fst snd].
  intros Hres.
  rewrite (matrix_sequence_from_stops _ _ _ _ post e buttons
             (Z.of_nat (List.length buttons))).
  - reflexivity.
  - lia.
  - rewrite length_app. lia.
  - destruct (matrix_sequence_from _ 0 buttons _ _ _ _ (mcp self)) as [[r s] t].
    unfold result in *. cbn [fst] in *. exact Hres.
Qed.

Lemma press_sequence_stops_at_failure_witness :
  press_sequence ([(1, 1); (0, 9)] ++ [(2, 2); (3, 3)]) (1 # 10) (2 # 10) matrix_4x4
  = press_sequence [(1, 1); (0, 9)] (1 # 10) (2 # 10) matrix_4x4.
Proof.
  exact (press_sequence_stops_at_failure matrix_4x4 [(1, 1); (0, 9)] [(2, 2); (3, 3)]
           (1 # 10) (2 # 10) (ValueError "Pin must be 0-7") eq_refl).
Defined.

Lemma healthy_after_press (k : nat) (row col : Z) (rp cp : string) (self : MCP23S17) :
  healthy (4 + k) (spi self) = true ->
  healthy k (spi (tick (tick (tick (tick
       (pin_low cp col (pin_low rp row (pin_high cp col (pin_high rp row self))))))))) = true.
Proof.
  intros H. unfold tick, pin_low, pin_high. cbn [spi with_spi].
  rewrite !spi_set_shadow.
  apply healthy_step, healthy_step, healthy_step, healthy_step. exact H.
Qed.

Lemma chip_select_after_press (row col : Z) (rp cp : string) (self : MCP23S17) :
  chip_select (tick (tick (tick (tick
       (pin_low cp col (pin_low rp row (pin_high cp col (pin_high rp row self))))))))
  = chip_select self.
Proof.
  repeat (rewrite chip_select_tick || rewrite chip_select_pin_high
          || rewrite chip_select_pin_low).
  reflexivity.
Qed.

Lemma gpio_frame_of_port (cs : Z) (port : string) (data : Z) :
  gpio_frame cs (write_frame cs (gpio_of port) data).
Proof.
  exists data. unfold gpio_of. destruct (String.eqb (upper port) "A"); auto.
Qed.

(** The runner over [pulse_row_column] on [n] positions with pins in 0..7:
    4n writes, all to GPIO registers, the sleeps of [sleep_pattern], and no
    other event. *)
Lemma press_each_counts (rp cp : string) (d itv : Q) (buttons : list (Z * Z)) :
  valid_port rp = true -> valid_port cp = true ->
  sleep_accepts d = true -> sleep_accepts itv = true ->
  forallb pins_in_range buttons = true ->
  forall (k : nat) (self : MCP23S17),
    healthy (4 * List.length buttons + k) (spi self) = true ->
    let r := press_each_in_order (fun row col => pulse_row_column row col rp cp d)
               buttons itv self in
    result r = Return tt
    /\ List.length (writes (trace r)) = (4 * List.length buttons)%nat
    /\ Forall (gpio_frame (chip_select self)) (writes (trace r))
    /\ sleeps (trace r) = sleep_pattern (List.length buttons) d itv
    /\ forallb is_write_or_sleep (trace r) = true.
Proof.
  intros Hrp Hcp Hd Hitv.
  induction buttons as [ | [row col] rest IH]; intros Hall k self H r.
  - subst r. repeat split. constructor.
  - cbn [forallb] in Hall. apply andb_true_iff in Hall. destruct Hall as [Hpins Hrest].
    unfold pins_in_range in Hpins. cbn [fst snd] in Hpins.
    apply andb_true_iff in Hpins. destruct Hpins as [Hrow Hcol].
    cbn [List.length] in H.
    replace (4 * S (List.length rest) + k)%nat
      with (4 + (4 * List.length rest + k))%nat in H by lia.
    pose proof (healthy_after_press _ row col rp cp self H) as Hnext.
    pose proof (chip_select_after_press row col rp cp self) as Hcs.
    subst r. cbn [press_each_in_order]. unfold bind.
    rewrite (pulse_row_column_ok (4 * List.length rest + k)) by assumption.
    destruct rest as [ | p rest'].
    + unfold ret, result, trace. cbn [fst snd app].
      repeat split.
      repeat (constructor; try apply gpio_frame_of_port).
    + rewrite time_sleep_ok by assumption.
      specialize (IH Hrest k _ Hnext). cbv zeta in IH.
      destruct (press_each_in_order _ (p :: rest') itv _) as [[res s2] t2].
      unfold result, trace in *. cbn [fst snd] in *.
      destruct IH as (Hres & Hlen & Hall & Hsl & Hws).
      rewrite Hcs in Hall.
      split; [exact Hres | ]. split; [ | split; [ | split]].
      * cbn [app writes flat_map List.length]. fold (writes t2).
        rewrite Hlen. cbn [List.length]. lia.
      * cbn [app writes flat_map]. fold (writes t2).
        repeat (constructor; try apply gpio_frame_of_port). exact Hall.
      * cbn [app sleeps flat_map]. fold (sleeps t2). rewrite Hsl. reflexivity.
      * cbn [app forallb is_write_or_sleep andb]. exact Hws.
Qed.

(** X15. With valid port letters, every pin of every position within 0..7,
    a duration and an interval that [time.sleep] sleeps for (from 0 to
    [sleep_limit]) and a bus on which four transfers per position go
    through, [press_sequence] on [n] positions returns normally.  Its
    events are accepted writes and sleeps only (no read, no failed
    transfer, no release of the handle): exactly [4 * n] writes, every one
    of them to GPIOA or GPIOB, and [duration] slept once per press with
    [interval] between two presses and nowhere else. *)
Theorem press_sequence_counts (self : MatrixController) (buttons : list (Z * Z))
    (duration interval : Q) :
  valid_port (row_port self) = true -> valid_port (col_port self) = true ->
  sleep_accepts duration = true -> sleep_accepts interval = true ->
  forallb pins_in_range buttons = true ->
  healthy (4 * List.length buttons) (spi (mcp self)) = true ->
  let r := press_sequence buttons duration interval self in
  result r = Return tt
  /\ List.length (writes (trace r)) = (4 * List.length buttons)%nat
  /\ Forall (gpio_frame (chip_select (mcp self))) (writes (trace r))
  /\ sleeps (trace r) = sleep_pattern (List.length buttons) duration interval
  /\ forallb is_write_or_sleep (trace r) = true.
Proof.
  intros Hrp Hcp Hd Hitv Hall H r. subst r.
  rewrite press_sequence_run. unfold on_mcp, zoom.
  replace (4 * List.length buttons)%nat with (4 * List.length buttons + 0)%nat in H by lia.
  pose proof (press_each_counts _ _ _ _ buttons Hrp Hcp Hd Hitv Hall 0%nat (mcp self) H)
    as W.
  cbv zeta in W.
  destruct (press_each_in_order _ buttons interval (mcp self)) as [[res s] t].
  exact W.
Qed.

Lemma press_sequence_counts_witness :
  result (press_sequence [(0, 0); (3, 3); (7, 7)] (1 # 10) (2 # 5) matrix_4x4) = Return tt
  /\ List.length (writes (trace (press_sequence [(0, 0); (3, 3); (7, 7)]
                                   (1 # 10) (2 # 5) matrix_4x4))) = 12%nat
  /\ sleeps (trace (press_sequence [(0, 0); (3, 3); (7, 7)] (1 # 10) (2 # 5) matrix_4x4))
     = [1 # 10; 2 # 5; 1 # 10; 2 # 5; 1 # 10]
  /\ forallb is_write_or_sleep
       (trace (press_sequence [(0, 0); (3, 3); (7, 7)] (1 # 10) (2 # 5) matrix_4x4))
     = true.
Proof.
  pose proof (press_sequence_counts matrix_4x4 [(0, 0); (3, 3); (7, 7)] (1 # 10) (2 # 5)
                eq_refl eq_refl eq_refl eq_refl eq_refl eq_refl) as W.
  split; [exact (proj1 W) | split].
  - exact (proj1 (proj2 W)).
  - exact (proj2 (proj2 (proj2 W))).
Defined.

(** ** Shutdown on a failing bus *)

(** X16. [cleanup] gives up at the first step that fails and says nothing: on
    an open handle where one of its two writes fails, it returns normally,
    makes no further transfer after the failed one (so GPIOB is not even
    tried when the write to GPIOA fails), and does not release the
    handle. *)
Theorem cleanup_stops_at_first_failure (self : MCP23S17) :
  fd_open (spi self) = true ->
  healthy 2 (spi self) = false ->
  let cs := chip_select self in
  let r := cleanup self in
  result r = Return tt
  /\ fd_open (spi (final r)) = true
  /\ trace r = (if healthy 1 (spi self)
                then [Writebytes (write_frame cs GPIOA 0x00);
                      Fault (write_frame cs GPIOB 0x00)]
                else [Fault (write_frame cs GPIOA 0x00)]).
Proof.
  intros Hfd H cs r. subst cs r.
  unfold cleanup, try_except, bind, ret.
  destruct self as [[fd ln x co] c a b].
  cbn [spi healthy fd_open line xfers advance chip_select] in *. subst fd.
  rewrite write_register_run. unfold spi_writebytes.
  cbn [spi fd_open line xfers with_spi advance chip_select].
  destruct (ln x); [ | repeat split].
  rewrite write_register_run. unfold spi_writebytes.
  cbn [spi fd_open line xfers with_spi advance chip_select].
  destruct (ln (S x)); [discriminate H | repeat split].
Qed.

Lemma cleanup_stops_at_first_failure_witness :
  result (cleanup chip_dead) = Return tt
  /\ fd_open (spi (final (cleanup chip_dead))) = true
  /\ trace (cleanup chip_dead) = [Fault [0x40; 0x12; 0x00]].
Proof.
  exact (cleanup_stops_at_first_failure chip_dead eq_refl eq_refl).
Defined.

(** ** The 3x4 keypad *)

Lemma button_map_in_grid (name : string) (row col : Z) :
  dict_get String.eqb name BUTTON_MAP = Some (row, col) ->
  0 <= row < 3 /\ 0 <= col < 4.
Proof.
  unfold BUTTON_MAP. cbn [dict_get].
  repeat (destruct (String.eqb name _);
          [intros H; injection H as <- <-; lia | ]).
  discriminate.
Qed.

(** X17. The two tables of the keypad are inverse to each other: a name maps to
    a position exactly when this position maps back to the name; and the
    positions that have a name are exactly those of the 3x4 grid. *)
Theorem keypad_maps_inverse (name : string) (row col : Z) :
  (dict_get String.eqb name BUTTON_MAP = Some (row, col)
   <-> dict_get pos_eqb (row, col) POSITION_MAP = Some name)
  /\ ((exists n, dict_get pos_eqb (row, col) POSITION_MAP = Some n)
      <-> 0 <= row < 3 /\ 0 <= col < 4).
Proof.
  assert (Back : forall n, dict_get pos_eqb (row, col) POSITION_MAP = Some n ->
                           dict_get String.eqb n BUTTON_MAP = Some (row, col)).
  { intros n.
    let l := eval vm_compute in POSITION_MAP in change POSITION_MAP with l.
    cbn [dict_get]. unfold pos_eqb. cbn [fst snd].
    repeat (match goal with
            | |- context [if (row =? ?a) && (col =? ?b) then _ else _] =>
                destruct ((row =? a) && (col =? b)) eqn:E;
                [ intros H; injection H as <-;
                  assert (Ea : row = a) by lia; assert (Eb : col = b) by lia;
                  rewrite Ea, Eb; reflexivity
                | clear E ]
            end).
    discriminate. }
  split; [split | split].
  - unfold BUTTON_MAP. cbn [dict_get].
    repeat (destruct (String.eqb name _) eqn:E;
            [apply String.eqb_eq in E; subst name;
             intros H; injection H as <- <-; reflexivity | clear E]).
    discriminate.
  - apply Back.
  - intros [n Hn]. apply (button_map_in_grid n). apply Back. exact Hn.
  - intros [Hr Hc].
    assert (R : row = 0 \/ row = 1 \/ row = 2) by lia.
    assert (C : col = 0 \/ col = 1 \/ col = 2 \/ col = 3) by lia.
    destruct R as [-> | [-> | ->]]; destruct C as [-> | [-> | [-> | ->]]];
      eexists; reflexivity.
Qed.

Lemma on_controller_run {A} (m : Py MatrixController A) (self : Keypad3x4) :
  on_controller m self
  = match m (controller self) with (r, c, t) => (r, mkKeypad3x4 c, t) end.
Proof. reflexivity. Qed.

(** X18. On a 3x4 keypad, [press_button] with a name outside the table raises
    [ValueError] with the keypad untouched and nothing sent; with a name
    of the table it presses the position the table gives, which always
    lies in the matrix, so the controller never refuses it. *)
Theorem keypad_press_button_by_name (self : Keypad3x4) (button_name : string)
    (duration : Q) :
  num_rows (controller self) = 3 -> num_cols (controller self) = 4 ->
  match dict_get String.eqb button_name BUTTON_MAP with
  | None =>
      Keypad3x4_press_button button_name duration self
      = (Raise (ValueError "Invalid button"), self, [])
  | Some (row, col) =>
      valid_position (controller self) (row, col) = true
      /\ Keypad3x4_press_button button_name duration self
         = on_controller
             (on_mcp (pulse_row_column row col (row_port (controller self))
                        (col_port (controller self)) duration)) self
  end.
Proof.
  intros Hr Hc. unfold Keypad3x4_press_button.
  destruct (dict_get String.eqb button_name BUTTON_MAP) as [[row col] | ] eqn:E;
    [ | reflexivity].
  apply button_map_in_grid in E.
  assert (Hv : valid_position (controller self) (row, col) = true)
    by (unfold valid_position; cbn [fst snd]; rewrite Hr, Hc; lia).
  split; [exact Hv | ].
  rewrite !on_controller_run, press_button_run by exact Hv. reflexivity.
Qed.

Lemma keypad_press_button_by_name_witness :
  Keypad3x4_press_button "CLR" (1 # 10) keypad_ok
  = on_controller (on_mcp (pulse_row_column 2 3 "A" "B" (1 # 10))) keypad_ok
  /\ Keypad3x4_press_button "#" (1 # 10) keypad_ok
     = (Raise (ValueError "Invalid button"), keypad_ok, []).
Proof.
  split.
  - exact (proj2 (keypad_press_button_by_name keypad_ok "CLR" (1 # 10) eq_refl eq_refl)).
  - exact (keypad_press_button_by_name keypad_ok "#" (1 # 10) eq_refl eq_refl).
Defined.

Lemma str_split_from_no_space (s : string) :
  forallb (fun c => negb (is_space c)) (list_ascii_of_string s) = true ->
  forall cur,
    str_split_from cur s
    = match rev cur ++ list_ascii_of_string s with
      | [] => []
      | _ :: _ => [string_of_list_ascii (rev cur ++ list_ascii_of_string s)]
      end.
Proof.
  induction s as [ | c rest IH]; intros Hs cur.
  - cbn [str_split_from list_ascii_of_string]. rewrite app_nil_r.
    destruct cur as [ | a cur'].
    + reflexivity.
    + destruct (rev (a :: cur')) eqn:E; [ | reflexivity].
      apply (f_equal (@List.length ascii)) in E. rewrite length_rev in E. discriminate E.
  - cbn [list_ascii_of_string forallb] in Hs. apply andb_true_iff in Hs.
    destruct Hs as [Hc Hrest]. apply negb_true_iff in Hc.
    cbn [str_split_from list_ascii_of_string]. rewrite Hc.
    rewrite (IH Hrest (c :: cur)). cbn [rev]. rewrite <- app_assoc. reflexivity.
Qed.

Lemma remove_spaces_no_space (s : string) :
  plain s = true ->
  forallb (fun c => negb (is_space c)) (list_ascii_of_string (str_remove_spaces s)) = true.
Proof.
  unfold plain. induction s as [ | c rest IH]; intros Hs.
  - reflexivity.
  - cbn [list_ascii_of_string forallb] in Hs. apply andb_true_iff in Hs.
    destruct Hs as [Hc Hrest]. cbn [str_remove_spaces].
    destruct (Ascii.eqb c " ") eqn:Esp.
    + apply IH. exact Hrest.
    + cbn [list_ascii_of_string forallb]. rewrite (IH Hrest), andb_true_r.
      unfold plain_char in Hc. rewrite Esp, orb_false_r in Hc.
      apply andb_true_iff in Hc. apply Hc.
Qed.

Lemma collect_button_char (acc : list (Z * Z)) (c : ascii) :
  plain_char c = true ->
  collect_button acc (String c EmptyString)
  = acc ++ match dict_get String.eqb (String c EmptyString) BUTTON_MAP with
           | Some p => [p]
           | None => []
           end.
Proof.
  intros Hc. unfold plain_char in Hc. apply andb_true_iff in Hc.
  destruct Hc as [_ Hc]. destruct (Ascii.eqb c " ") eqn:Esp.
  - apply Ascii.eqb_eq in Esp. subst c. cbn. rewrite app_nil_r. reflexivity.
  - rewrite orb_false_r in Hc. apply negb_true_iff in Hc.
    assert (Hstrip : str_strip (String c EmptyString) = String c EmptyString).
    { unfold str_strip. cbn [str_lstrip]. rewrite Hc.
      unfold str_reverse. cbn [list_ascii_of_string rev app string_of_list_ascii str_lstrip].
      rewrite Hc. reflexivity. }
    unfold collect_button. rewrite Hstrip. cbn [String.eqb].
    destruct (dict_get String.eqb (String c EmptyString) BUTTON_MAP);
      [reflexivity | rewrite app_nil_r; reflexivity].
Qed.

Lemma collect_chars (cs : list ascii) :
  forallb plain_char cs = true ->
  forall acc,
    fold_left collect_button (map (fun c => String c EmptyString) cs) acc
    = acc ++ flat_map (fun c => match dict_get String.eqb (String c EmptyString)
                                        BUTTON_MAP with
                                | Some p => [p]
                                | None => []
                                end) cs.
Proof.
  induction cs as [ | c cs IH]; intros Hcs acc.
  - cbn. rewrite app_nil_r. reflexivity.
  - cbn [forallb] in Hcs. apply andb_true_iff in Hcs. destruct Hcs as [Hc Hrest].
    cbn [map fold_left flat_map]. rewrite collect_button_char by exact Hc.
    rewrite (IH Hrest), app_assoc. reflexivity.
Qed.

Lemma remove_spaces_empty (s : string) :
  str_remove_spaces s = EmptyString -> char_positions s = [].
Proof.
  unfold char_positions. induction s as [ | c rest IH]; intros H.
  - reflexivity.
  - cbn [str_remove_spaces] in H. destruct (Ascii.eqb c " ") eqn:Esp; [ | discriminate H].
    apply Ascii.eqb_eq in Esp. subst c.
    cbn [list_ascii_of_string flat_map]. rewrite (IH H). reflexivity.
Qed.

Lemma single_char_not_named (c : ascii) (p : Z * Z) :
  dict_get String.eqb (String c EmptyString) BUTTON_MAP = Some p ->
  p <> (0, 3) /\ p <> (2, 3).
Proof.
  unfold BUTTON_MAP. cbn [dict_get String.eqb].
  repeat (match goal with
          | |- context [if (if Ascii.eqb c ?a then _ else _) then _ else _] =>
              destruct (Ascii.eqb c a)
          end;
          try (intros H; injection H as <-; split; discriminate)).
  all: discriminate.
Qed.

(** X19. For an ASCII string whose only whitespace is the space character,
    [press_sequence] of the keypad goes through the string character by
    character: it hands to the controller the positions of the characters
    that are button names, in order, and calls nothing when there is none.
    Spaces and unknown characters are passed over without an error, and
    the buttons CALL (0, 3) and CLR (2, 3) are never pressed this way. *)
Theorem keypad_press_sequence_plain (self : Keypad3x4) (button_sequence : string)
    (duration interval : Q) :
  plain button_sequence = true ->
  Keypad3x4_press_sequence button_sequence duration interval self
  = match char_positions button_sequence with
    | [] => (Return tt, self, [])
    | _ :: _ =>
        on_controller
          (press_sequence (char_positions button_sequence) duration interval) self
    end
  /\ ~ In (0, 3) (char_positions button_sequence)
  /\ ~ In (2, 3) (char_positions button_sequence).
Proof.
  intros Hplain. split.
  - unfold Keypad3x4_press_sequence, str_split.
    rewrite str_split_from_no_space by (apply remove_spaces_no_space; exact Hplain).
    cbn [rev app].
    destruct (list_ascii_of_string (str_remove_spaces button_sequence)) as [ | a l] eqn:E.
    + cbn [List.length Nat.eqb fold_left].
      rewrite remove_spaces_empty; [reflexivity | ].
      rewrite <- (string_of_list_ascii_of_string (str_remove_spaces button_sequence)), E.
      reflexivity.
    + cbn [List.length Nat.eqb]. unfold list_chars.
      rewrite collect_chars by exact Hplain. cbn [app].
      fold (char_positions button_sequence).
      destruct (char_positions button_sequence); reflexivity.
  - unfold char_positions.
    induction (list_ascii_of_string button_sequence) as [ | c cs IH].
    + split; intros [].
    + cbn [flat_map].
      destruct (dict_get String.eqb (String c EmptyString) BUTTON_MAP) as [p | ] eqn:E;
        [ | exact IH].
      apply single_char_not_named in E. destruct E as [E1 E2]. destruct IH as [I1 I2].
      cbn [app In]. split; intros [H | H]; congruence || auto.
Qed.

Lemma keypad_press_sequence_plain_witness :
  plain "1 2 3 CALL" = true
  /\ char_positions "1 2 3 CALL" = [(0, 0); (0, 1); (0, 2)]
  /\ Keypad3x4_press_sequence "1 2 3 CALL" (1 # 10) (1 # 5) keypad_ok
     = match char_positions "1 2 3 CALL" with
       | [] => (Return tt, keypad_ok, [])
       | _ :: _ =>
           on_controller
             (press_sequence (char_positions "1 2 3 CALL") (1 # 10) (1 # 5)) keypad_ok
       end.
Proof.
  split; [reflexivity | split; [reflexivity | ]].
  exact (proj1 (keypad_press_sequence_plain keypad_ok "1 2 3 CALL" (1 # 10) (1 # 5)
                  eq_refl)).
Defined.
